(** * XML-to-Neo4j importer: a shallow embedding of [xmlimports_python_script.py]

    The importer walks the document that [xmltodict] produced from one UniProt
    entry and sends parameterised Cypher statements to a Neo4j session.  The
    program never reads anything back from the session, so its observable
    behaviour is the ordered trace of calls it makes to the driver: opening
    and closing drivers and sessions, and the statements passed to
    [session.run].  Every sub-importer is embedded as a computation that
    yields such a trace together with either a value or the Python exception
    that aborted it; nothing is caught, so an exception ends the run and the
    trace up to it is what reached the store.  The graph the statements build
    is obtained by interpreting the statements of a trace, in order, on a
    small model of the store: [CREATE] appends a node, and
    [MATCH .. MATCH .. CREATE] adds an edge for every pair of matching nodes. *)

From Stdlib Require Import String Ascii List Bool Arith Lia.
Import ListNotations.
Open Scope string_scope.
Open Scope list_scope.

#[local] Set Warnings "-register-all".

(** ** The parsed document *)

(** What [xmltodict.parse] returns: [None] for an empty element, a [str] for
    an attribute or a text-only element, a [dict] (insertion ordered) for an
    element with attributes or children, a [list] for a repeated child. *)
Inductive value : Type :=
| VNone
| VStr (s : string)
| VDict (kvs : list (string * value))
| VList (vs : list value).

Inductive exn : Type :=
| KeyError (k : string)
| TypeError
| AttributeError.

Inductive result (A : Type) : Type :=
| Ok (a : A)
| Raise (e : exn).
Arguments Ok {A} a.
Arguments Raise {A} e.

Definition bindR {A B} (r : result A) (k : A -> result B) : result B :=
  match r with
  | Ok a => k a
  | Raise e => Raise e
  end.

Notation "'let?' x ':=' e 'in' k" := (bindR e (fun x => k))
  (at level 10, x name, e at level 100, k at level 200).

(** Dictionary lookup on the ordered key/value list of a [dict]. *)
Fixpoint lookup (k : string) (kvs : list (string * value)) : option value :=
  match kvs with
  | [] => None
  | (k', v) :: rest => if String.eqb k k' then Some v else lookup k rest
  end.

(** [v[k]] for a string key [k]. *)
Definition getitem (v : value) (k : string) : result value :=
  match v with
  | VDict kvs =>
      match lookup k kvs with
      | Some x => Ok x
      | None => Raise (KeyError k)
      end
  | _ => Raise TypeError
  end.

(** [v.get(k, default)]: only a [dict] has the method. *)
Definition dict_get (v : value) (k : string) (default : value) : result value :=
  match v with
  | VDict kvs =>
      match lookup k kvs with
      | Some x => Ok x
      | None => Ok default
      end
  | _ => Raise AttributeError
  end.

(** [v == s] for a string literal [s]; never raises. *)
Definition eq_str (v : value) (s : string) : bool :=
  match v with
  | VStr t => String.eqb t s
  | _ => false
  end.

Definition is_none (v : value) : bool :=
  match v with
  | VNone => true
  | _ => false
  end.

(** Substring test, the meaning of [k in s] on two strings. *)
Definition contains (s k : string) : bool :=
  match index 0 k s with
  | Some _ => true
  | None => false
  end.

(** [k in v] for a string literal [k]. *)
Definition py_in (k : string) (v : value) : result bool :=
  match v with
  | VDict kvs =>
      match lookup k kvs with
      | Some _ => Ok true
      | None => Ok false
      end
  | VStr s => Ok (contains s k)
  | VList vs => Ok (existsb (fun x => eq_str x k) vs)
  | VNone => Raise TypeError
  end.

(** The items a [for] loop ranges over: the elements of a list, the keys of
    a dict, the characters of a string. *)
Definition py_iter (v : value) : result (list value) :=
  match v with
  | VList vs => Ok vs
  | VDict kvs => Ok (map (fun kv => VStr (fst kv)) kvs)
  | VStr s => Ok (map (fun c => VStr (String c EmptyString)) (list_ascii_of_string s))
  | VNone => Raise TypeError
  end.

(** [v[k1][k2]...[kn]]. *)
Definition nav (v : value) (path : list string) : result value :=
  fold_left (fun r k => let? x := r in getitem x k) path (Ok v).

(** ** Cypher statements *)

Inductive label : Type :=
| Protein | Gene | Feature | Reference | Author | FullName | Organism.

Inductive reltype : Type :=
| FROM_GENE | HAS_FEATURE | HAS_REFERENCE | HAS_AUTHOR | HAS_FULL_NAME | IN_ORGANISM.

Definition props : Type := list (string * value).

(** The two statement templates of the program with their parameters filled
    in: [CREATE (x:L {props})] and
    [MATCH (a:La {pa}) MATCH (b:Lb {pb}) CREATE (a)-[:R]->(b)]. *)
Inductive stmt : Type :=
| CreateNode (l : label) (p : props)
| CreateRel (la : label) (pa : props) (r : reltype) (lb : label) (pb : props).

(** ** Traces *)

Inductive importer : Type :=
| IProtein | IGene | IFeature | IReference | IAuthor | IFullName | IOrganism.

(** What a trace records: the calls to the driver ([GraphDatabase.driver],
    [driver.close], [driver.session] and the end of its [with] block,
    [session.run]) and, to tell the sub-importers apart, the entry into each
    of them. *)
Inductive event : Type :=
| Invoke (i : importer)
| DriverOpen
| DriverClose
| SessionOpen
| SessionClose
| Run (q : stmt).

Definition M (A : Type) : Type := (list event * result A)%type.

Definition ret {A} (a : A) : M A := ([], Ok a).

Definition bind {A B} (m : M A) (k : A -> M B) : M B :=
  match snd m with
  | Ok a => (fst m ++ fst (k a), snd (k a))
  | Raise e => (fst m, Raise e)
  end.

Notation "x <- m ;; k" := (bind m (fun x => k))
  (at level 61, m at next level, right associativity).
Notation "m ;; k" := (bind m (fun _ => k))
  (at level 61, right associativity).

Definition lift {A} (r : result A) : M A := ([], r).

Definition emit (e : event) : M unit := ([e], Ok tt).

Definition invoke (i : importer) : M unit := emit (Invoke i).

(** [self.open_database()] and [self.close_database(driver)]. *)
Definition open_database : M unit := emit DriverOpen.
Definition close_database : M unit := emit DriverClose.

(** [session.run(query, **params)]; the store is taken to accept every
    statement. *)
Definition session_run (q : stmt) : M unit := emit (Run q).

(** [with driver.session() as session: body]: the session is closed when the
    block is left, whether normally or by an exception, which is re-raised. *)
Definition with_session {A} (body : M A) : M A :=
  (SessionOpen :: fst body ++ [SessionClose], snd body).

(** [for x in xs: body x]. *)
Fixpoint for_each {A} (body : A -> M unit) (xs : list A) : M unit :=
  match xs with
  | [] => ret tt
  | x :: rest => body x ;; for_each body rest
  end.

Definition when (b : bool) (m : M unit) : M unit :=
  if b then m else ret tt.

(** ** The sub-importers *)

Definition id_protein : value := VStr "Q9Y261".

Module InsertProtein.
Definition query (id_protein : value) : stmt :=
  CreateNode Protein [("id_protein", id_protein)].
End InsertProtein.

Definition insert_protein : M unit :=
  invoke IProtein ;;
  open_database ;;
  with_session (session_run (InsertProtein.query id_protein)) ;;
  close_database.

Module InsertGene.
Definition query (name : value) : stmt :=
  CreateNode Gene [("name", name)].
Definition query_relationship (id_protein name : value) : stmt :=
  CreateRel Protein [("id_protein", id_protein)] FROM_GENE Gene [("name", name)].

(** The condition of the [if], with Python's short-circuit evaluation of
    [and] and [or]. *)
Definition selected (gene : value) : result bool :=
  let? t := getitem gene "@type" in
  let? left :=
    (if eq_str t "synonym"
     then let? x := getitem gene "#text" in Ok (eq_str x "HNF3B")
     else Ok false) in
  if left then Ok true
  else
    let? t' := getitem gene "@type" in
    if eq_str t' "primary"
    then let? x := getitem gene "#text" in Ok (eq_str x "FOXA2")
    else Ok false.

Definition body (gene : value) : M unit :=
  b <- lift (selected gene) ;;
  when b
    (name <- lift (getitem gene "#text") ;;
     session_run (query name) ;;
     session_run (query_relationship id_protein name)).
End InsertGene.

Definition insert_gene (data : value) : M unit :=
  invoke IGene ;;
  open_database ;;
  with_session
    (genes <- lift (let? v := nav data ["uniprot"; "entry"; "gene"; "name"] in py_iter v) ;;
     for_each InsertGene.body genes) ;;
  close_database.

Module InsertFeature.
Definition query (name type : value) : stmt :=
  CreateNode Feature [("name", name); ("type", type)].
Definition query_relationship (id_protein name type : value) : stmt :=
  CreateRel Protein [("id_protein", id_protein)] HAS_FEATURE
            Feature [("name", name); ("type", type)].

(** [feature['location'].get('position', {}).get('@position') == '307'] *)
Definition at_position (feature : value) : result bool :=
  let? loc := getitem feature "location" in
  let? pos := dict_get loc "position" (VDict []) in
  let? p := dict_get pos "@position" VNone in
  Ok (eq_str p "307").

Definition body (feature : value) : M unit :=
  b <- lift (at_position feature) ;;
  when b
    (name <- lift (getitem feature "@description") ;;
     type <- lift (getitem feature "@type") ;;
     when (eq_str name "Phosphoserine" && eq_str type "modified residue")
       (session_run (query name type) ;;
        session_run (query_relationship id_protein name type))).
End InsertFeature.

Definition insert_feature (data : value) : M unit :=
  invoke IFeature ;;
  open_database ;;
  with_session
    (features <- lift (let? v := nav data ["uniprot"; "entry"; "feature"] in py_iter v) ;;
     for_each InsertFeature.body features) ;;
  close_database.

Module InsertAuthor.
Definition query (name : value) : stmt :=
  CreateNode Author [("name", name)].
Definition query_relationship (id type author name : value) : stmt :=
  CreateRel Reference [("id", id); ("type", type); ("name", author)] HAS_AUTHOR
            Author [("name", name)].

Definition body (id type author person : value) : M unit :=
  name <- lift (getitem person "@name") ;;
  session_run (query name) ;;
  session_run (query_relationship id type author name).
End InsertAuthor.

Definition insert_author (authorList id type author : value) : M unit :=
  invoke IAuthor ;;
  open_database ;;
  with_session
    (has_person <- lift (py_in "person" authorList) ;;
     when has_person
       (persons <- lift (let? v := getitem authorList "person" in py_iter v) ;;
        for_each (InsertAuthor.body id type author) persons)) ;;
  close_database.

Module InsertReference.
Definition query (id type name : value) : stmt :=
  CreateNode Reference [("id", id); ("type", type); ("name", name)].
Definition query_relationship (id_protein id type name : value) : stmt :=
  CreateRel Protein [("id_protein", id_protein)] HAS_REFERENCE
            Reference [("id", id); ("type", type); ("name", name)].

(** [id = ""; if '@key' in reference: id = reference['@key']] *)
Definition key_of (reference : value) : result value :=
  let? has := py_in "@key" reference in
  if has then getitem reference "@key" else Ok (VStr "").

(** [x = ""; if reference.get('citation', {}).get(attr) is not None:
    x = reference['citation'][attr]] *)
Definition citation_attr (reference : value) (attr : string) : result value :=
  let? c := dict_get reference "citation" (VDict []) in
  let? a := dict_get c attr VNone in
  if is_none a then Ok (VStr "")
  else let? c' := getitem reference "citation" in getitem c' attr.

Definition cascade (reference id type name : value) : M unit :=
  c <- lift (getitem reference "citation") ;;
  has <- lift (py_in "authorList" c) ;;
  when has
    (authorList <- lift (let? c' := getitem reference "citation" in
                         getitem c' "authorList") ;;
     insert_author authorList id type name).

Definition body (reference : value) : M unit :=
  id <- lift (key_of reference) ;;
  type <- lift (citation_attr reference "@type") ;;
  name <- lift (citation_attr reference "@name") ;;
  session_run (query id type name) ;;
  session_run (query_relationship id_protein id type name) ;;
  cascade reference id type name.
End InsertReference.

Definition insert_reference (data : value) : M unit :=
  invoke IReference ;;
  open_database ;;
  with_session
    (references <- lift (let? v := nav data ["uniprot"; "entry"; "reference"] in py_iter v) ;;
     for_each InsertReference.body references) ;;
  close_database.

Module InsertFullName.
Definition query (name : value) : stmt :=
  CreateNode FullName [("name", name)].
Definition query_relationship (id_protein name : value) : stmt :=
  CreateRel Protein [("id_protein", id_protein)] HAS_FULL_NAME
            FullName [("name", name)].

Definition path : list string :=
  ["uniprot"; "entry"; "protein"; "recommendedName"; "fullName"].
End InsertFullName.

Definition insert_fullname (data : value) : M unit :=
  invoke IFullName ;;
  open_database ;;
  with_session
    (full <- lift (nav data InsertFullName.path) ;;
     when (eq_str full "Hepatocyte nuclear factor 3-beta")
       (name <- lift (nav data InsertFullName.path) ;;
        session_run (InsertFullName.query name) ;;
        session_run (InsertFullName.query_relationship id_protein name))) ;;
  close_database.

Module InsertOrganism.
Definition query (name taxonomy_id : value) : stmt :=
  CreateNode Organism [("name", name); ("taxonomy_id", taxonomy_id)].
Definition query_relationship (id_protein name taxonomy_id : value) : stmt :=
  CreateRel Protein [("id_protein", id_protein)] IN_ORGANISM
            Organism [("name", name); ("taxonomy_id", taxonomy_id)].

Definition body (organism : value) : M unit :=
  text <- lift (getitem organism "#text") ;;
  when (eq_str text "Homo sapiens")
    (name <- lift (getitem organism "#text") ;;
     let taxonomy_id := VStr "9606" in
     session_run (query name taxonomy_id) ;;
     session_run (query_relationship id_protein name taxonomy_id)).
End InsertOrganism.

Definition insert_organism (data : value) : M unit :=
  invoke IOrganism ;;
  open_database ;;
  with_session
    (organisms <- lift (let? v := nav data ["uniprot"; "entry"; "organism"; "name"] in py_iter v) ;;
     for_each InsertOrganism.body organisms) ;;
  close_database.

(** [run]: [data] is what [load_file] stored in [self.data]. *)
Definition run (data : value) : M unit :=
  insert_protein ;;
  insert_gene data ;;
  insert_feature data ;;
  insert_reference data ;;
  insert_fullname data ;;
  insert_organism data.

(** ** What a trace shows *)

Definition stmt_of (e : event) : list stmt :=
  match e with
  | Run q => [q]
  | _ => []
  end.

Definition invocation_of (e : event) : list importer :=
  match e with
  | Invoke i => [i]
  | _ => []
  end.

(** The statements passed to [session.run], in order. *)
Definition stmts (t : list event) : list stmt := flat_map stmt_of t.

(** The sub-importers entered, in order. *)
Definition invocations (t : list event) : list importer := flat_map invocation_of t.

(** Equality on the four resource events, the only ones counted below. *)
Definition event_eqb (a b : event) : bool :=
  match a, b with
  | DriverOpen, DriverOpen => true
  | DriverClose, DriverClose => true
  | SessionOpen, SessionOpen => true
  | SessionClose, SessionClose => true
  | _, _ => false
  end.

Definition occurrences (e : event) (t : list event) : nat :=
  length (filter (event_eqb e) t).

(** Drivers (sessions) opened and not closed by the end of the trace. *)
Definition open_drivers (t : list event) : nat :=
  occurrences DriverOpen t - occurrences DriverClose t.
Definition open_sessions (t : list event) : nat :=
  occurrences SessionOpen t - occurrences SessionClose t.

(** ** The graph store *)

Record node : Type := { nlabel : label; nprops : props }.
Record edge : Type := { esrc : nat; etype : reltype; edst : nat }.
Record graph : Type := { nodes : list node; edges : list edge }.

Definition empty_graph : graph := {| nodes := []; edges := [] |}.

Definition label_eqb (a b : label) : bool :=
  match a, b with
  | Protein, Protein | Gene, Gene | Feature, Feature | Reference, Reference
  | Author, Author | FullName, FullName | Organism, Organism => true
  | _, _ => false
  end.

Definition reltype_eqb (a b : reltype) : bool :=
  match a, b with
  | FROM_GENE, FROM_GENE | HAS_FEATURE, HAS_FEATURE
  | HAS_REFERENCE, HAS_REFERENCE | HAS_AUTHOR, HAS_AUTHOR
  | HAS_FULL_NAME, HAS_FULL_NAME | IN_ORGANISM, IN_ORGANISM => true
  | _, _ => false
  end.

(** Property values are compared as strings, which is what the parser
    delivers for every attribute and text the program passes on; a value of
    another kind matches nothing. *)
Definition prop_eqb (a b : value) : bool :=
  match a, b with
  | VStr s, VStr t => String.eqb s t
  | _, _ => false
  end.

(** A node matches the pattern [(x:L {p})] when it carries label [L] and
    every property of [p] with an equal value. *)
Definition node_matches (l : label) (p : props) (n : node) : bool :=
  label_eqb l (nlabel n) &&
  forallb (fun kv =>
             match lookup (fst kv) (nprops n) with
             | Some v => prop_eqb (snd kv) v
             | None => false
             end) p.

(** Positions, counted from [base], of the nodes matching a pattern. *)
Fixpoint match_positions (l : label) (p : props) (base : nat) (ns : list node) : list nat :=
  match ns with
  | [] => []
  | n :: rest =>
      (if node_matches l p n then [base] else []) ++ match_positions l p (S base) rest
  end.

(** [CREATE] always adds a node.  [MATCH .. MATCH .. CREATE] adds one edge
    for every pair of a node matching the first pattern and a node matching
    the second, and none when either pattern matches nothing. *)
Definition exec_stmt (g : graph) (q : stmt) : graph :=
  match q with
  | CreateNode l p =>
      {| nodes := nodes g ++ [{| nlabel := l; nprops := p |}]; edges := edges g |}
  | CreateRel la pa r lb pb =>
      {| nodes := nodes g;
         edges := edges g ++
                  map (fun ab => {| esrc := fst ab; etype := r; edst := snd ab |})
                      (list_prod (match_positions la pa 0 (nodes g))
                                 (match_positions lb pb 0 (nodes g))) |}
  end.

Definition exec_from (g : graph) (log : list stmt) : graph := fold_left exec_stmt log g.

Definition exec_log (log : list stmt) : graph := exec_from empty_graph log.

Definition count_nodes (l : label) (g : graph) : nat :=
  length (filter (fun n => label_eqb l (nlabel n)) (nodes g)).

Definition count_edges (r : reltype) (g : graph) : nat :=
  length (filter (fun e => reltype_eqb r (etype e)) (edges g)).

(** ** Sample documents *)

(** An element with a type attribute and a text, as in
    [<name type="primary">FOXA2</name>]. *)
Definition elem (ty tx : string) : value :=
  VDict [("@type", VStr ty); ("#text", VStr tx)].

(** A small entry of the expected shape: three gene names, two features,
    two references (the first with two authors), a recommended name and two
    organism names. *)
Definition sample_document : value :=
  VDict [("uniprot", VDict [("entry", VDict [
    ("gene", VDict [("name", VList [elem "primary" "FOXA2";
                                    elem "synonym" "HNF3B";
                                    elem "synonym" "TCF3B"])]);
    ("feature", VList [
       VDict [("@type", VStr "modified residue");
              ("@description", VStr "Phosphoserine");
              ("location", VDict [("position", VDict [("@position", VStr "307")])])];
       VDict [("@type", VStr "chain");
              ("location", VDict [("begin", VDict [("@position", VStr "1")])])]]);
    ("reference", VList [
       VDict [("@key", VStr "1");
              ("citation", VDict [("@type", VStr "journal article");
                                  ("@name", VStr "Genomics");
                                  ("authorList",
                                   VDict [("person", VList [VDict [("@name", VStr "A")];
                                                            VDict [("@name", VStr "B")]])])])];
       VDict [("@key", VStr "2");
              ("citation", VDict [("@type", VStr "submission")])]]);
    ("protein", VDict [("recommendedName",
                        VDict [("fullName", VStr "Hepatocyte nuclear factor 3-beta")])]);
    ("organism", VDict [("name", VList [elem "scientific" "Homo sapiens";
                                        elem "common" "Human"])])
  ])])].

(** * Vocabulary of the properties *)

(** [wf_log seen log]: scanning [log] from the left, with [seen] the
    statements issued before it, every relationship statement finds the
    creation of both the nodes it matches among the statements already
    issued. *)
Fixpoint wf_log (seen log : list stmt) : Prop :=
  match log with
  | [] => True
  | q :: rest =>
      match q with
      | CreateNode _ _ => True
      | CreateRel la pa _ lb pb =>
          In (CreateNode la pa) seen /\ In (CreateNode lb pb) seen
      end /\ wf_log (q :: seen) rest
  end.

(** The same property stated on positions of the log. *)
Definition endpoints_created_before (log : list stmt) : Prop :=
  forall pre la pa r lb pb post,
    log = pre ++ CreateRel la pa r lb pb :: post ->
    In (CreateNode la pa) pre /\ In (CreateNode lb pb) pre.

(** [wf_under need t]: the statements of [t] are well ordered after any
    history that contains the statements [need]. *)
Definition wf_under (need : list stmt) (t : list event) : Prop :=
  forall seen, incl need seen -> wf_log seen (stmts t).

(** The statement that creates the root entity. *)
Definition root_created : stmt := InsertProtein.query id_protein.

(** The nodes the creation statements of a log ask for, in order. *)
Definition created (log : list stmt) : list node :=
  flat_map (fun q => match q with
                     | CreateNode l p => [{| nlabel := l; nprops := p |}]
                     | CreateRel _ _ _ _ _ => []
                     end) log.

(** A trace in which no sub-importer is entered. *)
Definition quiet (t : list event) : Prop := invocations t = [].

(** A trace in which only the Author import is entered. *)
Definition authors_only (t : list event) : Prop :=
  exists j, invocations t = repeat IAuthor j.

(** The order [run] is written in, with [k] Author imports inside the
    Reference step. *)
Definition expected_order (k : nat) : list importer :=
  [IProtein; IGene; IFeature; IReference] ++ repeat IAuthor k ++ [IFullName; IOrganism].

(** The condition of the cascade: ['authorList' in reference['citation']]. *)
Definition has_author_list (reference : value) : bool :=
  match (let? c := getitem reference "citation" in py_in "authorList" c) with
  | Ok b => b
  | Raise _ => false
  end.

(** The items the Reference import loops over. *)
Definition references_of (data : value) : list value :=
  match (let? v := nav data ["uniprot"; "entry"; "reference"] in py_iter v) with
  | Ok refs => refs
  | Raise _ => []
  end.

Definition author_cascades (data : value) : nat :=
  length (filter has_author_list (references_of data)).

(** The shape the Gene import expects of a gene-name element: a mapping
    with a ['@type'] and a ['#text']. *)
Definition gene_element (gene : value) : bool :=
  match gene with
  | VDict kvs =>
      match lookup "@type" kvs, lookup "#text" kvs with
      | Some _, Some _ => true
      | _, _ => false
      end
  | _ => false
  end.

(** The selection predicate as the specification words it: type 'synonym'
    with text 'HNF3B', or type 'primary' with text 'FOXA2'. *)
Definition gene_predicate (gene : value) : bool :=
  match gene with
  | VDict kvs =>
      match lookup "@type" kvs, lookup "#text" kvs with
      | Some ty, Some tx =>
          (eq_str ty "synonym" && eq_str tx "HNF3B") ||
          (eq_str ty "primary" && eq_str tx "FOXA2")
      | _, _ => false
      end
  | _ => false
  end.

(** The ['#text'] of an element ([None] when it has none). *)
Definition text_of (elem : value) : value :=
  match getitem elem "#text" with
  | Ok v => v
  | Raise _ => VNone
  end.

(** The two statements issued for a selected gene-name element. *)
Definition gene_stmts (gene : value) : list stmt :=
  [InsertGene.query (text_of gene);
   InsertGene.query_relationship id_protein (text_of gene)].

Definition matching (l : label) (p : props) (ns : list node) : nat :=
  length (filter (node_matches l p) ns).

Definition is_str (v : value) : bool :=
  match v with
  | VStr _ => true
  | _ => false
  end.

Definition root_props : props := [("id_protein", id_protein)].

(** The statements issued for a gene named [v]. *)
Definition named_gene_stmts (v : value) : list stmt :=
  [InsertGene.query v; InsertGene.query_relationship id_protein v].

(** A document reduced to its gene names. *)
Definition gene_document (names : value) : value :=
  VDict [("uniprot", VDict [("entry", VDict [("gene", VDict [("name", names)])])])].

(** The key of a reference: its ['@key'], or the empty string. *)
Definition reference_key (kvs : list (string * value)) : value :=
  match lookup "@key" kvs with
  | Some v => v
  | None => VStr ""
  end.

(** An attribute of the citation [c], or the empty string when it is absent
    (or [None]). *)
Definition citation_field (c : list (string * value)) (attr : string) : value :=
  match lookup attr c with
  | Some v => if is_none v then VStr "" else v
  | None => VStr ""
  end.

(** What follows the two statements of a reference with citation [c]. *)
Definition cascade_of (c : list (string * value)) (id type name : value) : M unit :=
  match lookup "authorList" c with
  | Some authorList => insert_author authorList id type name
  | None => ret tt
  end.

(** The shape the Author import expects of a person: a mapping with a
    ['@name']. *)
Definition person_entry (person : value) : bool :=
  match person with
  | VDict kvs =>
      match lookup "@name" kvs with
      | Some _ => true
      | None => false
      end
  | _ => false
  end.

(** The persons of an author list: the sequence under ['person'], none when
    the list has no such entry. *)
Definition person_sequence (al : list (string * value)) : option (list value) :=
  match lookup "person" al with
  | Some (VList persons) => Some persons
  | Some _ => None
  | None => Some []
  end.

Definition name_of (person : value) : value :=
  match getitem person "@name" with
  | Ok v => v
  | Raise _ => VNone
  end.

(** The two statements issued for a person of a reference [(id, type, name)]. *)
Definition author_stmts (id type name person : value) : list stmt :=
  [InsertAuthor.query (name_of person);
   InsertAuthor.query_relationship id type name (name_of person)].

Definition is_author_creation (q : stmt) : bool :=
  match q with
  | CreateNode Author _ => true
  | _ => false
  end.

Definition is_has_author (q : stmt) : bool :=
  match q with
  | CreateRel _ _ HAS_AUTHOR _ _ => true
  | _ => false
  end.

(** A HAS_AUTHOR statement matches its Reference by exactly these key
    properties. *)
Definition anchored_at (id type name : value) (q : stmt) : Prop :=
  match q with
  | CreateRel la pa HAS_AUTHOR _ _ =>
      la = Reference /\ pa = [("id", id); ("type", type); ("name", name)]
  | _ => True
  end.

(** The trace of a sub-importer whose loop raises before any statement: the
    session is closed on the way out, the driver is not. *)
Definition aborted (i : importer) (e : exn) : M unit :=
  ([Invoke i; DriverOpen; SessionOpen; SessionClose], Raise e).

(** [releases m]: along [m] every session opened is closed, no driver is
    closed that was not opened, and every driver opened is closed when [m]
    raises nothing. *)
Definition releases {A} (m : M A) : Prop :=
  occurrences SessionOpen (fst m) = occurrences SessionClose (fst m) /\
  occurrences DriverClose (fst m) <= occurrences DriverOpen (fst m) /\
  (forall a, snd m = Ok a ->
             occurrences DriverOpen (fst m) = occurrences DriverClose (fst m)).

(** What the code gives for a sub-importer: no session is left open; no
    driver is left open when it returns, at least one when it raises. *)
Definition closes_driver_only_on_success (m : M unit) : Prop :=
  open_sessions (fst m) = 0 /\
  match snd m with
  | Ok _ => open_drivers (fst m) = 0
  | Raise _ => 1 <= open_drivers (fst m)
  end.

(** Every Organism creation carries the constant taxonomy identifier. *)
Definition taxonomy_is_constant (q : stmt) : Prop :=
  match q with
  | CreateNode Organism p => lookup "taxonomy_id" p = Some (VStr "9606")
  | _ => True
  end.

Definition constant_taxonomy (t : list event) : Prop :=
  Forall taxonomy_is_constant (stmts t).

(** The shape the Organism import expects of a name element: a mapping with
    a ['#text']. *)
Definition organism_element (organism : value) : bool :=
  match organism with
  | VDict kvs =>
      match lookup "#text" kvs with
      | Some _ => true
      | None => false
      end
  | _ => false
  end.

Definition is_homo_sapiens (organism : value) : bool :=
  eq_str (text_of organism) "Homo sapiens".

(** The two statements issued for a selected organism name. *)
Definition homo_sapiens_stmts : list stmt :=
  [InsertOrganism.query (VStr "Homo sapiens") (VStr "9606");
   InsertOrganism.query_relationship id_protein (VStr "Homo sapiens") (VStr "9606")].

(** ** Vocabulary of the further properties *)

(** The value of field [k] of an element ([None] when it has none). *)
Definition field (elem : value) (k : string) : value :=
  match getitem elem k with
  | Ok v => v
  | Raise _ => VNone
  end.

(** The ['@position'] of the ['position'] of the ['location'] of a feature
    ([None] when one of them is missing). *)
Definition position_attr (feature : value) : value :=
  field (field (field feature "location") "position") "@position".

(** The shape the Feature import expects of a feature: a mapping whose
    location is a mapping, whose position (if any) is a mapping, and which
    has a description and a type when its position is '307'. *)
Definition feature_element (feature : value) : bool :=
  match feature with
  | VDict kvs =>
      match lookup "location" kvs with
      | Some (VDict loc) =>
          match lookup "position" loc with
          | None => true
          | Some (VDict pos) =>
              if eq_str (field (VDict pos) "@position") "307"
              then match lookup "@description" kvs, lookup "@type" kvs with
                   | Some _, Some _ => true
                   | _, _ => false
                   end
              else true
          | Some _ => false
          end
      | _ => false
      end
  | _ => false
  end.

(** The selection of the Feature import: position '307', description
    'Phosphoserine', type 'modified residue'. *)
Definition feature_predicate (feature : value) : bool :=
  eq_str (position_attr feature) "307" &&
  eq_str (field feature "@description") "Phosphoserine" &&
  eq_str (field feature "@type") "modified residue".

(** The two statements issued for a selected feature. *)
Definition phosphoserine_stmts : list stmt :=
  [InsertFeature.query (VStr "Phosphoserine") (VStr "modified residue");
   InsertFeature.query_relationship id_protein
     (VStr "Phosphoserine") (VStr "modified residue")].

Definition recommended_name : string := "Hepatocyte nuclear factor 3-beta".

(** The two statements issued for the recommended full name. *)
Definition fullname_stmts : list stmt :=
  [InsertFullName.query (VStr recommended_name);
   InsertFullName.query_relationship id_protein (VStr recommended_name)].

(** The citation of a reference, when it is a mapping (empty otherwise). *)
Definition citation_of (reference : value) : list (string * value) :=
  match field reference "citation" with
  | VDict c => c
  | _ => []
  end.

(** The persons of the author list of a reference (none when it has no
    author list). *)
Definition authors_of (reference : value) : list value :=
  match lookup "authorList" (citation_of reference) with
  | Some (VDict al) =>
      match person_sequence al with
      | Some persons => persons
      | None => []
      end
  | _ => []
  end.

(** The shape the Reference import expects of a reference: a mapping whose
    citation is a mapping and whose author list, if any, is a mapping with a
    sequence of persons that have a name. *)
Definition reference_element (reference : value) : bool :=
  match reference with
  | VDict kvs =>
      match lookup "citation" kvs with
      | Some (VDict c) =>
          match lookup "authorList" c with
          | None => true
          | Some (VDict al) =>
              match person_sequence al with
              | Some persons => forallb person_entry persons
              | None => false
              end
          | Some _ => false
          end
      | _ => false
      end
  | _ => false
  end.

(** The statements issued for a reference: its creation, its
    HAS_REFERENCE statement, then a creation and a HAS_AUTHOR statement for
    each of its authors. *)
Definition reference_stmts (reference : value) : list stmt :=
  match reference with
  | VDict kvs =>
      let c := citation_of reference in
      let id := reference_key kvs in
      let type := citation_field c "@type" in
      let name := citation_field c "@name" in
      InsertReference.query id type name
      :: InsertReference.query_relationship id_protein id type name
      :: flat_map (author_stmts id type name) (authors_of reference)
  | _ => []
  end.

Definition is_reference_creation (q : stmt) : bool :=
  match q with
  | CreateNode Reference _ => true
  | _ => false
  end.

(** A statement of a dependent import: it creates no root, and a
    relationship of type [r] it issues is matched from the root. *)
Definition dependent_on_root (r : reltype) (q : stmt) : Prop :=
  match q with
  | CreateNode l _ => l <> Protein
  | CreateRel la _ r' _ _ => la = Protein \/ r' <> r
  end.

(** A store without a root. *)
Definition no_root (ns : list node) : Prop :=
  Forall (fun n => nlabel n <> Protein) ns.

(** A log made of pairs: a creation followed at once by the relationship
    statement whose second pattern is the node just created. *)
Inductive paired : list stmt -> Prop :=
| paired_nil : paired []
| paired_cons l p la pa r rest :
    paired rest ->
    paired (CreateNode l p :: CreateRel la pa r l p :: rest).

(** Each sub-importer entered opens one driver and one session of its
    own. *)
Definition one_driver_each (t : list event) : Prop :=
  occurrences DriverOpen t = length (invocations t) /\
  occurrences SessionOpen t = length (invocations t).

(** Every statement of a trace is one of a dependent import. *)
Definition all_dependent (r : reltype) (t : list event) : Prop :=
  Forall (dependent_on_root r) (stmts t).

(** The statements of a trace are made of pairs. *)
Definition paired_trace (t : list event) : Prop := paired (stmts t).

(** The sub-importers [run] calls after the Protein import, in order. *)
Definition steps (data : value) : list (M unit) :=
  [insert_gene data; insert_feature data; insert_reference data;
   insert_fullname data; insert_organism data].

(** The exceptions allowed to a computation: type errors, attribute errors
    when [attr_ok], and key errors for the keys [keys]. *)
Definition allowed_exn (attr_ok : bool) (keys : list string) (e : exn) : Prop :=
  match e with
  | TypeError => True
  | AttributeError => attr_ok = true
  | KeyError k => In k keys
  end.

Definition raises_within (allowed : exn -> Prop) {A} (r : result A) : Prop :=
  forall e, r = Raise e -> allowed e.

Definition raises_only (allowed : exn -> Prop) {A} (m : M A) : Prop :=
  raises_within allowed (snd m).

Definition gene_keys : list string :=
  ["uniprot"; "entry"; "gene"; "name"; "@type"; "#text"].
Definition feature_keys : list string :=
  ["uniprot"; "entry"; "feature"; "location"; "@description"; "@type"].
Definition reference_keys : list string :=
  ["uniprot"; "entry"; "reference"; "citation"; "@name"].
Definition organism_keys : list string :=
  ["uniprot"; "entry"; "organism"; "name"; "#text"].

(** The Gene node created for the name [v]. *)
Definition gene_node (v : value) : node :=
  {| nlabel := Gene; nprops := [("name", v)] |}.

(** [q] creates a node labelled [l]. *)
Definition creates (l : label) (q : stmt) : bool :=
  match q with
  | CreateNode l' _ => label_eqb l l'
  | CreateRel _ _ _ _ _ => false
  end.

(** The nodes a run is to create, label by label, on a document of the
    expected shape with these gene names, features, references, full name
    and organism names. *)
Definition document_nodes
           (genes features references : list value) (full : value)
           (organisms : list value) (l : label) : nat :=
  match l with
  | Protein => 1
  | Gene => length (filter gene_predicate genes)
  | Feature => length (filter feature_predicate features)
  | Reference => length references
  | Author => length (flat_map authors_of references)
  | FullName => if eq_str full recommended_name then 1 else 0
  | Organism => length (filter is_homo_sapiens organisms)
  end.

(** A document reduced to its references. *)
Definition reference_document (references : value) : value :=
  VDict [("uniprot", VDict [("entry", VDict [("reference", references)])])].

(** A document reduced to its organism names. *)
Definition organism_document (names : value) : value :=
  VDict [("uniprot", VDict [("entry", VDict [("organism", VDict [("name", names)])])])].

(** The properties of the one Organism the import knows. *)
Definition homo_sapiens_props : props :=
  [("name", VStr "Homo sapiens"); ("taxonomy_id", VStr "9606")].

(** * Properties of the embedding *)

(** ** Traces of composed computations *)

Lemma fst_bind A B (m : M A) (k : A -> M B) :
  fst (bind m k) =
  fst m ++ match snd m with Ok a => fst (k a) | Raise _ => [] end.
Proof.
  unfold bind. destruct (snd m); simpl; auto using app_nil_r.
Qed.

Lemma snd_bind A B (m : M A) (k : A -> M B) :
  snd (bind m k) = match snd m with Ok a => snd (k a) | Raise e => Raise e end.
Proof.
  unfold bind. destruct (snd m); reflexivity.
Qed.

Lemma stmts_app (a b : list event) : stmts (a ++ b) = stmts a ++ stmts b.
Proof. apply flat_map_app. Qed.

Lemma invocations_app (a b : list event) :
  invocations (a ++ b) = invocations a ++ invocations b.
Proof. apply flat_map_app. Qed.

Lemma occurrences_app e (a b : list event) :
  occurrences e (a ++ b) = occurrences e a + occurrences e b.
Proof. unfold occurrences. now rewrite filter_app, length_app. Qed.

Lemma stmts_with_session A (body : M A) :
  stmts (fst (with_session body)) = stmts (fst body).
Proof.
  unfold with_session. simpl. rewrite stmts_app. simpl. apply app_nil_r.
Qed.

Lemma invocations_with_session A (body : M A) :
  invocations (fst (with_session body)) = invocations (fst body).
Proof.
  unfold with_session. simpl. rewrite invocations_app. simpl. apply app_nil_r.
Qed.

(** A property of traces that holds of the empty trace and is kept by
    concatenation holds of a computation as soon as it holds of its parts. *)
Section Closed.
Variable P : list event -> Prop.
Hypothesis P_nil : P [].
Hypothesis P_app : forall a b, P a -> P b -> P (a ++ b).

Lemma closed_bind A B (m : M A) (k : A -> M B) :
  P (fst m) -> (forall a, P (fst (k a))) -> P (fst (bind m k)).
Proof.
  intros Hm Hk. rewrite fst_bind. apply P_app; auto.
  destruct (snd m); auto.
Qed.

Lemma closed_lift A (r : result A) : P (fst (lift r)).
Proof. exact P_nil. Qed.

Lemma closed_ret A (a : A) : P (fst (ret a)).
Proof. exact P_nil. Qed.

Lemma closed_when b (m : M unit) : P (fst m) -> P (fst (when b m)).
Proof. destruct b; simpl; auto. Qed.

Lemma closed_for_each A (body : A -> M unit) (xs : list A) :
  (forall x, P (fst (body x))) -> P (fst (for_each body xs)).
Proof.
  intros Hb. induction xs as [|x xs IH]; simpl.
  - exact P_nil.
  - apply closed_bind; auto.
Qed.

Lemma closed_with_session A (body : M A) :
  P [SessionOpen] -> P [SessionClose] -> P (fst body) ->
  P (fst (with_session body)).
Proof.
  intros Ho Hc Hb. unfold with_session. simpl.
  change (P ([SessionOpen] ++ (fst body ++ [SessionClose]))).
  auto.
Qed.
End Closed.

(** ** Relationships come after their endpoints *)

Lemma wf_log_incl seen seen' log :
  incl seen seen' -> wf_log seen log -> wf_log seen' log.
Proof.
  revert seen seen'. induction log as [|q rest IH]; simpl; intros seen seen' Hi H.
  - exact I.
  - destruct H as [Hq Hr]. split.
    + destruct q; auto. destruct Hq. split; apply Hi; assumption.
    + apply IH with (seen := q :: seen); auto.
      intros x [->|Hx]; [left; reflexivity | right; apply Hi; exact Hx].
Qed.

Lemma wf_log_app seen l1 l2 :
  wf_log seen l1 -> wf_log (rev l1 ++ seen) l2 -> wf_log seen (l1 ++ l2).
Proof.
  revert seen. induction l1 as [|q rest IH]; simpl; intros seen H1 H2.
  - exact H2.
  - destruct H1 as [Hq Hr]. split; auto.
    apply IH; auto. now rewrite <- app_assoc in H2.
Qed.

Lemma wf_log_sound seen log :
  wf_log seen log ->
  forall pre la pa r lb pb post,
    log = pre ++ CreateRel la pa r lb pb :: post ->
    In (CreateNode la pa) (rev pre ++ seen) /\
    In (CreateNode lb pb) (rev pre ++ seen).
Proof.
  revert seen. induction log as [|q rest IH]; intros seen H pre la pa r lb pb post E.
  - destruct pre; discriminate.
  - destruct pre as [|q' pre]; simpl in E; injection E as -> ->.
    + simpl in H. exact (proj1 H).
    + simpl in H. destruct H as [_ H].
      specialize (IH _ H _ _ _ _ _ _ _ eq_refl).
      simpl. now rewrite <- !app_assoc.
Qed.

Lemma wf_log_endpoints log : wf_log [] log -> endpoints_created_before log.
Proof.
  intros H pre la pa r lb pb post E.
  destruct (wf_log_sound _ _ H _ _ _ _ _ _ _ E) as [Ha Hb].
  rewrite app_nil_r in Ha, Hb. split; apply in_rev; assumption.
Qed.

Lemma wf_under_nil need : wf_under need [].
Proof. intros seen _. exact I. Qed.

Lemma wf_under_app need a b :
  wf_under need a -> wf_under (stmts a ++ need) b -> wf_under need (a ++ b).
Proof.
  intros Ha Hb seen Hi. rewrite stmts_app. apply wf_log_app; auto.
  apply Hb. intros x Hx. apply in_app_iff. apply in_app_iff in Hx.
  destruct Hx as [Hx|Hx]; [left; now apply in_rev in Hx | right; auto].
Qed.

Lemma wf_under_weaken need need' t :
  incl need need' -> wf_under need t -> wf_under need' t.
Proof.
  intros Hi H seen Hs. apply H. eapply incl_tran; eauto.
Qed.

Lemma wf_under_closed need a b :
  wf_under need a -> wf_under need b -> wf_under need (a ++ b).
Proof.
  intros Ha Hb. apply wf_under_app; auto.
  eapply wf_under_weaken; [|exact Hb]. apply incl_appr, incl_refl.
Qed.

Lemma wf_under_bind need A B (m : M A) (k : A -> M B) :
  wf_under need (fst m) ->
  (forall a, wf_under (stmts (fst m) ++ need) (fst (k a))) ->
  wf_under need (fst (bind m k)).
Proof.
  intros Hm Hk. rewrite fst_bind. apply wf_under_app; auto.
  destruct (snd m); auto using wf_under_nil.
Qed.

Lemma wf_under_lift need A B (r : result A) (k : A -> M B) :
  (forall a, wf_under need (fst (k a))) -> wf_under need (fst (bind (lift r) k)).
Proof.
  intros Hk. apply wf_under_bind; [apply wf_under_nil | exact Hk].
Qed.

Lemma wf_under_with_session need A (body : M A) :
  wf_under need (fst body) -> wf_under need (fst (with_session body)).
Proof.
  intros H seen Hi. rewrite stmts_with_session. now apply H.
Qed.

Lemma wf_under_silent need e :
  stmt_of e = [] -> wf_under need (fst (emit e)).
Proof.
  intros He seen _. unfold stmts. simpl. rewrite He. exact I.
Qed.

(** A node creation immediately followed by the relationship that ties the
    new node to an anchor created earlier. *)
Lemma wf_under_create_rel need l p la pa r :
  In (CreateNode la pa) need ->
  wf_under need
    (fst (session_run (CreateNode l p) ;; session_run (CreateRel la pa r l p))).
Proof.
  intros Ha seen Hi. apply Hi in Ha. simpl.
  repeat split; simpl; auto.
Qed.

Lemma wf_under_when need b (m : M unit) :
  wf_under need (fst m) -> wf_under need (fst (when b m)).
Proof. apply closed_when, wf_under_nil. Qed.

Lemma wf_under_for_each need A (body : A -> M unit) xs :
  (forall x, wf_under need (fst (body x))) ->
  wf_under need (fst (for_each body xs)).
Proof.
  apply closed_for_each; [apply wf_under_nil | apply wf_under_closed].
Qed.

(** The frame every sub-importer shares: announce, open a driver, run the
    body in a session, close the driver. *)
Lemma wf_under_frame need i (body : M unit) :
  wf_under need (fst body) ->
  wf_under need
    (fst (invoke i ;; open_database ;; with_session body ;; close_database)).
Proof.
  intros Hb.
  repeat (apply closed_bind;
          [apply wf_under_nil | apply wf_under_closed | | intros _]);
    try (apply wf_under_silent; reflexivity).
  now apply wf_under_with_session.
Qed.

Lemma wf_under_run_create need l p :
  wf_under need (fst (session_run (CreateNode l p))).
Proof. intros seen _. simpl. auto. Qed.

Lemma wf_under_run_rel need la pa r lb pb :
  In (CreateNode la pa) need -> In (CreateNode lb pb) need ->
  wf_under need (fst (session_run (CreateRel la pa r lb pb))).
Proof. intros Ha Hb seen Hi. simpl. auto. Qed.

Lemma insert_protein_wf : wf_under [] (fst insert_protein).
Proof. apply wf_under_frame, wf_under_run_create. Qed.

Lemma insert_gene_wf need data :
  In root_created need -> wf_under need (fst (insert_gene data)).
Proof.
  intros Hroot. apply wf_under_frame, wf_under_lift. intros genes.
  apply wf_under_for_each. intros gene.
  apply wf_under_lift. intros b. apply wf_under_when.
  apply wf_under_lift. intros name.
  now apply wf_under_create_rel.
Qed.

Lemma insert_feature_wf need data :
  In root_created need -> wf_under need (fst (insert_feature data)).
Proof.
  intros Hroot. apply wf_under_frame, wf_under_lift. intros features.
  apply wf_under_for_each. intros feature.
  apply wf_under_lift. intros b. apply wf_under_when.
  apply wf_under_lift. intros name. apply wf_under_lift. intros type.
  apply wf_under_when. now apply wf_under_create_rel.
Qed.

Lemma insert_author_wf need authorList id type author :
  In (InsertReference.query id type author) need ->
  wf_under need (fst (insert_author authorList id type author)).
Proof.
  intros Href. apply wf_under_frame, wf_under_lift. intros has.
  apply wf_under_when, wf_under_lift. intros persons.
  apply wf_under_for_each. intros person.
  apply wf_under_lift. intros name.
  now apply wf_under_create_rel.
Qed.

Lemma insert_reference_wf need data :
  In root_created need -> wf_under need (fst (insert_reference data)).
Proof.
  intros Hroot. apply wf_under_frame, wf_under_lift. intros references.
  apply wf_under_for_each. intros reference.
  apply wf_under_lift. intros id. apply wf_under_lift. intros type.
  apply wf_under_lift. intros name.
  apply wf_under_bind; [apply wf_under_run_create | intros _].
  apply wf_under_bind; [apply wf_under_run_rel; simpl; auto | intros _].
  apply wf_under_lift. intros c. apply wf_under_lift. intros has.
  apply wf_under_when, wf_under_lift. intros authorList.
  apply insert_author_wf. simpl. auto.
Qed.

Lemma insert_fullname_wf need data :
  In root_created need -> wf_under need (fst (insert_fullname data)).
Proof.
  intros Hroot. apply wf_under_frame, wf_under_lift. intros full.
  apply wf_under_when, wf_under_lift. intros name.
  now apply wf_under_create_rel.
Qed.

Lemma insert_organism_wf need data :
  In root_created need -> wf_under need (fst (insert_organism data)).
Proof.
  intros Hroot. apply wf_under_frame, wf_under_lift. intros organisms.
  apply wf_under_for_each. intros organism.
  apply wf_under_lift. intros text. apply wf_under_when.
  apply wf_under_lift. intros name.
  now apply wf_under_create_rel.
Qed.

(** C2.  In the statements issued by a full run, on any document and also
    when the run is cut short by an exception, every relationship statement
    comes strictly after the creation statements of both nodes it matches:
    the anchor (the Protein, or the Reference for HAS_AUTHOR) and the
    dependent node. *)
Theorem relationships_follow_their_endpoints (data : value) :
  endpoints_created_before (stmts (fst (run data))).
Proof.
  apply wf_log_endpoints.
  assert (H : wf_under [] (fst (run data))).
  { unfold run. apply wf_under_bind; [exact insert_protein_wf | intros _].
    assert (Hroot : In root_created (stmts (fst insert_protein) ++ [])) by (simpl; auto).
    repeat (apply closed_bind;
            [apply wf_under_nil | apply wf_under_closed | | intros _]).
    - now apply insert_gene_wf.
    - now apply insert_feature_wf.
    - now apply insert_reference_wf.
    - now apply insert_fullname_wf.
    - now apply insert_organism_wf. }
  apply H, incl_refl.
Qed.

(** ** Node creation is unconditional *)

Lemma nodes_exec_from (log : list stmt) (g : graph) :
  nodes (exec_from g log) = nodes g ++ created log.
Proof.
  revert g. induction log as [|q rest IH]; intros g; simpl.
  - now rewrite app_nil_r.
  - unfold exec_from in *. simpl. rewrite IH.
    destruct q; simpl; [now rewrite <- app_assoc | reflexivity].
Qed.

Lemma count_nodes_exec_from l log g :
  count_nodes l (exec_from g log) =
  count_nodes l g + length (filter (fun n => label_eqb l (nlabel n)) (created log)).
Proof.
  unfold count_nodes. now rewrite nodes_exec_from, filter_app, length_app.
Qed.

(** ** The order of the sub-importers *)

Lemma bind_lift_ok A B (a : A) (k : A -> M B) : bind (lift (Ok a)) k = k a.
Proof. unfold bind. simpl. now destruct (k a). Qed.

Lemma bind_lift_raise A B e (k : A -> M B) :
  bind (lift (Raise e)) k = ([], Raise e).
Proof. reflexivity. Qed.

Lemma bind_emit B e (k : unit -> M B) :
  bind (emit e) k = (e :: fst (k tt), snd (k tt)).
Proof. reflexivity. Qed.

Lemma bind_ok_inv A B (m : M A) (k : A -> M B) b :
  snd (bind m k) = Ok b -> exists a, snd m = Ok a /\ snd (k a) = Ok b.
Proof.
  rewrite snd_bind. destruct (snd m) as [a|e]; [eauto | discriminate].
Qed.

Lemma quiet_nil : quiet [].
Proof. reflexivity. Qed.

Lemma quiet_app a b : quiet a -> quiet b -> quiet (a ++ b).
Proof. unfold quiet. intros Ha Hb. now rewrite invocations_app, Ha, Hb. Qed.

Ltac quiet_walk :=
  repeat first
    [ apply (closed_for_each quiet quiet_nil quiet_app); intros ?
    | apply (closed_when quiet quiet_nil)
    | reflexivity
    | apply (closed_bind quiet quiet_nil quiet_app); [|intros ?] ].

(** Whatever the body does, a sub-importer announces itself once, before
    the invocations of its body. *)
Lemma invocations_frame i (body : M unit) :
  invocations (fst (invoke i ;; open_database ;; with_session body ;; close_database))
  = i :: invocations (fst body).
Proof.
  unfold invoke, open_database. rewrite !bind_emit. simpl. f_equal.
  rewrite fst_bind, invocations_app, invocations_with_session.
  destruct (snd (with_session body)); simpl; apply app_nil_r.
Qed.

Lemma result_frame i (body : M unit) :
  snd (invoke i ;; open_database ;; with_session body ;; close_database) = snd body.
Proof.
  unfold invoke, open_database. rewrite !bind_emit. simpl.
  rewrite snd_bind. simpl. destruct (snd body) as [[]|]; reflexivity.
Qed.

Lemma insert_protein_invocations : invocations (fst insert_protein) = [IProtein].
Proof. reflexivity. Qed.

Lemma insert_gene_invocations data : invocations (fst (insert_gene data)) = [IGene].
Proof.
  unfold insert_gene. rewrite invocations_frame. f_equal.
  unfold InsertGene.body. quiet_walk.
Qed.

Lemma insert_feature_invocations data :
  invocations (fst (insert_feature data)) = [IFeature].
Proof.
  unfold insert_feature. rewrite invocations_frame. f_equal.
  unfold InsertFeature.body. quiet_walk.
Qed.

Lemma insert_fullname_invocations data :
  invocations (fst (insert_fullname data)) = [IFullName].
Proof.
  unfold insert_fullname. rewrite invocations_frame. f_equal. quiet_walk.
Qed.

Lemma insert_organism_invocations data :
  invocations (fst (insert_organism data)) = [IOrganism].
Proof.
  unfold insert_organism. rewrite invocations_frame. f_equal.
  unfold InsertOrganism.body. quiet_walk.
Qed.

Lemma insert_author_invocations authorList id type author :
  invocations (fst (insert_author authorList id type author)) = [IAuthor].
Proof.
  unfold insert_author. rewrite invocations_frame. f_equal.
  unfold InsertAuthor.body. quiet_walk.
Qed.

Lemma authors_only_nil : authors_only [].
Proof. now exists 0. Qed.

Lemma authors_only_app a b :
  authors_only a -> authors_only b -> authors_only (a ++ b).
Proof.
  intros [j Hj] [k Hk]. exists (j + k).
  now rewrite invocations_app, Hj, Hk, repeat_app.
Qed.

Lemma authors_only_quiet t : quiet t -> authors_only t.
Proof. intros H. now exists 0. Qed.

Lemma reference_body_authors_only reference :
  authors_only (fst (InsertReference.body reference)).
Proof.
  unfold InsertReference.body, InsertReference.cascade.
  repeat first
    [ apply (closed_when authors_only authors_only_nil)
    | (exists 1; apply insert_author_invocations)
    | (apply authors_only_quiet; reflexivity)
    | apply (closed_bind authors_only authors_only_nil authors_only_app); [|intros ?] ].
Qed.

Lemma insert_reference_invocations data :
  exists j, invocations (fst (insert_reference data)) = IReference :: repeat IAuthor j.
Proof.
  unfold insert_reference.
  assert (H : authors_only
                (fst (references <- lift (let? v := nav data ["uniprot"; "entry"; "reference"] in py_iter v) ;;
                      for_each InsertReference.body references))).
  { apply (closed_bind authors_only authors_only_nil authors_only_app).
    - apply authors_only_nil.
    - intros refs. apply (closed_for_each authors_only authors_only_nil authors_only_app).
      apply reference_body_authors_only. }
  destruct H as [j Hj]. exists j. now rewrite invocations_frame, Hj.
Qed.

Lemma reference_body_invocations_ok reference :
  snd (InsertReference.body reference) = Ok tt ->
  invocations (fst (InsertReference.body reference)) =
  if has_author_list reference then [IAuthor] else [].
Proof.
  unfold InsertReference.body, InsertReference.cascade, has_author_list.
  destruct (InsertReference.key_of reference) as [id|]; [|discriminate].
  rewrite bind_lift_ok.
  destruct (InsertReference.citation_attr reference "@type") as [type|]; [|discriminate].
  rewrite bind_lift_ok.
  destruct (InsertReference.citation_attr reference "@name") as [name|]; [|discriminate].
  rewrite bind_lift_ok. unfold session_run. rewrite !bind_emit. cbn [fst snd invocations flat_map invocation_of app].
  destruct (getitem reference "citation") as [c|]; [|discriminate].
  rewrite bind_lift_ok. cbn [bindR].
  destruct (py_in "authorList" c) as [has|]; [|discriminate].
  rewrite bind_lift_ok. destruct has; cbn [when]; [|reflexivity].
  destruct (getitem c "authorList") as [authorList|]; [|discriminate].
  cbn [bindR]. rewrite bind_lift_ok. intros _. apply insert_author_invocations.
Qed.

Lemma for_each_reference_invocations_ok refs :
  snd (for_each InsertReference.body refs) = Ok tt ->
  invocations (fst (for_each InsertReference.body refs)) =
  repeat IAuthor (length (filter has_author_list refs)).
Proof.
  induction refs as [|r refs IH]; [reflexivity|].
  cbn [for_each]. intros H.
  apply bind_ok_inv in H. destruct H as [[] [Hr Hrest]].
  rewrite fst_bind, Hr, invocations_app, (reference_body_invocations_ok _ Hr), (IH Hrest).
  cbn [filter]. destruct (has_author_list r); reflexivity.
Qed.

Lemma insert_reference_invocations_ok data :
  snd (insert_reference data) = Ok tt ->
  invocations (fst (insert_reference data)) =
  IReference :: repeat IAuthor (author_cascades data).
Proof.
  unfold insert_reference, author_cascades, references_of.
  rewrite result_frame, invocations_frame.
  destruct (let? v := nav data ["uniprot"; "entry"; "reference"] in py_iter v) as [refs|];
    [|discriminate].
  rewrite bind_lift_ok. intros H. f_equal.
  now apply for_each_reference_invocations_ok.
Qed.

(** C6.  A run enters the sub-importers in the order Protein, Gene, Feature,
    Reference, then the Author import once for each reference whose citation
    has an author list, then FullName, Organism.  A run that an exception
    cuts short has entered an initial part of that order and nothing else. *)
Theorem run_enters_importers_in_fixed_order (data : value) :
  (exists k rest, expected_order k = invocations (fst (run data)) ++ rest) /\
  (snd (run data) = Ok tt ->
   invocations (fst (run data)) = expected_order (author_cascades data)).
Proof.
  unfold run, expected_order. split.
  - destruct (insert_reference_invocations data) as [j Hj].
    rewrite fst_bind, invocations_app, insert_protein_invocations.
    change (snd insert_protein) with (@Ok unit tt). cbv iota.
    rewrite fst_bind, invocations_app, insert_gene_invocations.
    destruct (snd (insert_gene data));
      [|exists 0, [IFeature; IReference; IFullName; IOrganism]; reflexivity].
    rewrite fst_bind, invocations_app, insert_feature_invocations.
    destruct (snd (insert_feature data));
      [|exists 0, [IReference; IFullName; IOrganism]; reflexivity].
    rewrite fst_bind, invocations_app, Hj.
    destruct (snd (insert_reference data)).
    + rewrite fst_bind, invocations_app, insert_fullname_invocations.
      destruct (snd (insert_fullname data)).
      * exists j, []. rewrite insert_organism_invocations. cbn [app].
        now rewrite ?app_nil_r, <- ?app_assoc.
      * exists j, [IOrganism]. cbn [app invocations flat_map].
        now rewrite ?app_nil_r, <- ?app_assoc.
    + exists j, [IFullName; IOrganism]. cbn [app invocations flat_map].
      now rewrite ?app_nil_r, <- ?app_assoc.
  - intros H.
    apply bind_ok_inv in H. destruct H as [[] [_ H]].
    apply bind_ok_inv in H. destruct H as [[] [Hg H]].
    apply bind_ok_inv in H. destruct H as [[] [Hf H]].
    apply bind_ok_inv in H. destruct H as [[] [Hr H]].
    apply bind_ok_inv in H. destruct H as [[] [Hn Ho]].
    rewrite fst_bind, invocations_app, insert_protein_invocations.
    change (snd insert_protein) with (@Ok unit tt). cbv iota.
    rewrite fst_bind, invocations_app, insert_gene_invocations, Hg.
    rewrite fst_bind, invocations_app, insert_feature_invocations, Hf.
    rewrite fst_bind, invocations_app, (insert_reference_invocations_ok _ Hr), Hr.
    rewrite fst_bind, invocations_app, insert_fullname_invocations, Hn.
    rewrite insert_organism_invocations. cbn [app].
    now rewrite ?app_nil_r, <- ?app_assoc.
Qed.

(** C6 applied to the sample document, whose run succeeds with one
    reference carrying an author list. *)
Lemma run_order_on_sample_document :
  snd (run sample_document) = Ok tt /\
  invocations (fst (run sample_document)) = expected_order 1.
Proof.
  split.
  - reflexivity.
  - exact (proj2 (run_enters_importers_in_fixed_order sample_document) eq_refl).
Defined.

(** ** Protein import followed by Gene import *)

Lemma stmts_frame i (body : M unit) :
  stmts (fst (invoke i ;; open_database ;; with_session body ;; close_database))
  = stmts (fst body).
Proof.
  unfold invoke, open_database. rewrite !bind_emit. simpl.
  rewrite fst_bind, stmts_app, stmts_with_session.
  destruct (snd (with_session body)); simpl; apply app_nil_r.
Qed.

Lemma gene_selected_on_element gene :
  gene_element gene = true -> InsertGene.selected gene = Ok (gene_predicate gene).
Proof.
  destruct gene as [|s|kvs|vs]; try discriminate.
  unfold gene_element, gene_predicate, InsertGene.selected, getitem.
  destruct (lookup "@type" kvs) as [ty|]; [|discriminate].
  destruct (lookup "#text" kvs) as [tx|]; [|discriminate].
  intros _. cbn [bindR].
  destruct (eq_str ty "synonym"), (eq_str tx "HNF3B"), (eq_str ty "primary"),
    (eq_str tx "FOXA2"); reflexivity.
Qed.

Lemma gene_body_on_element gene :
  gene_element gene = true ->
  InsertGene.body gene =
  (map Run (if gene_predicate gene then gene_stmts gene else []), Ok tt).
Proof.
  intros H. unfold InsertGene.body.
  rewrite (gene_selected_on_element _ H), bind_lift_ok.
  destruct (gene_predicate gene); [|reflexivity].
  unfold gene_stmts, text_of. cbn [when].
  destruct gene as [|s|kvs|vs]; try discriminate.
  unfold gene_element in H. unfold getitem.
  destruct (lookup "@type" kvs); [|discriminate].
  destruct (lookup "#text" kvs); [|discriminate].
  reflexivity.
Qed.

Lemma for_each_gene_elements genes :
  forallb gene_element genes = true ->
  for_each InsertGene.body genes =
  (map Run (flat_map gene_stmts (filter gene_predicate genes)), Ok tt).
Proof.
  induction genes as [|g genes IH]; [reflexivity|].
  cbn [forallb for_each filter]. intros H.
  apply andb_true_iff in H. destruct H as [Hg Hrest].
  rewrite (gene_body_on_element _ Hg), (IH Hrest). unfold bind. cbn [fst snd].
  destruct (gene_predicate g); reflexivity.
Qed.

Lemma stmts_map_run log : stmts (map Run log) = log.
Proof.
  induction log as [|q log IH]; [reflexivity|]. simpl. now rewrite IH.
Qed.

(** *** Counting what the store holds *)

Lemma length_match_positions l p base ns :
  length (match_positions l p base ns) = matching l p ns.
Proof.
  unfold matching. revert base. induction ns as [|n ns IH]; intros base; simpl.
  - reflexivity.
  - rewrite length_app, IH. destruct (node_matches l p n); reflexivity.
Qed.

Lemma matching_app l p ns ns' :
  matching l p (ns ++ ns') = matching l p ns + matching l p ns'.
Proof. unfold matching. now rewrite filter_app, length_app. Qed.

Lemma count_edges_create r g l p :
  count_edges r (exec_stmt g (CreateNode l p)) = count_edges r g.
Proof. reflexivity. Qed.

(** A relationship statement adds as many edges as there are pairs of
    matching endpoints. *)
Lemma count_edges_rel r g la pa lb pb :
  count_edges r (exec_stmt g (CreateRel la pa r lb pb)) =
  count_edges r g + matching la pa (nodes g) * matching lb pb (nodes g).
Proof.
  unfold count_edges. cbn [exec_stmt edges].
  rewrite filter_app, length_app. f_equal.
  rewrite <- !length_match_positions with (base := 0), <- length_prod.
  set (pairs := list_prod _ _). clearbody pairs.
  induction pairs as [|ab pairs IH]; [reflexivity|].
  cbn [map filter etype].
  replace (reltype_eqb r r) with true by (destruct r; reflexivity).
  simpl. now rewrite IH.
Qed.

Lemma prop_eqb_eq a b : prop_eqb a b = true -> a = b.
Proof.
  destruct a, b; try discriminate. simpl. intros H.
  apply String.eqb_eq in H. now subst.
Qed.

Lemma prop_eqb_refl v : is_str v = true -> prop_eqb v v = true.
Proof. destruct v; try discriminate. intros _. apply String.eqb_refl. Qed.

Lemma matching_gene_node_as_root v :
  matching Protein root_props [{| nlabel := Gene; nprops := [("name", v)] |}] = 0.
Proof. reflexivity. Qed.

Lemma matching_gene_node v w :
  matching Gene [("name", v)] [{| nlabel := Gene; nprops := [("name", w)] |}] =
  if prop_eqb v w then 1 else 0.
Proof.
  unfold matching, node_matches. simpl. now destruct (prop_eqb v w).
Qed.

(** With one root in the store and no Gene node yet carrying any of the
    names to come, every name adds one Gene node and one FROM_GENE edge. *)
Lemma gene_loop_counts (names : list value) :
  forall g,
    matching Protein root_props (nodes g) = 1 ->
    (forall v, In v names -> matching Gene [("name", v)] (nodes g) = 0) ->
    forallb is_str names = true ->
    NoDup names ->
    count_edges FROM_GENE (exec_from g (flat_map named_gene_stmts names)) =
    count_edges FROM_GENE g + length names.
Proof.
  induction names as [|v names IH]; intros g Hroot Hfresh Hstr Hnd.
  - simpl. lia.
  - cbn [forallb] in Hstr. apply andb_true_iff in Hstr. destruct Hstr as [Hv Hstr].
    inversion Hnd as [|? ? Hnotin Hnd']; subst.
    cbn [flat_map named_gene_stmts app]. unfold exec_from in *. cbn [fold_left].
    rewrite IH; auto.
    + unfold InsertGene.query_relationship, InsertGene.query.
      rewrite count_edges_rel, count_edges_create. cbn [exec_stmt nodes].
      fold root_props. rewrite !matching_app, Hroot, matching_gene_node_as_root.
      rewrite (Hfresh v (or_introl eq_refl)), matching_gene_node, (prop_eqb_refl _ Hv).
      cbn [length]. lia.
    + cbn [exec_stmt nodes InsertGene.query_relationship InsertGene.query].
      fold root_props. rewrite matching_app, Hroot, matching_gene_node_as_root. lia.
    + intros w Hw.
      cbn [exec_stmt nodes InsertGene.query_relationship InsertGene.query].
      rewrite matching_app, (Hfresh w (or_intror Hw)), matching_gene_node.
      destruct (prop_eqb w v) eqn:E; [|reflexivity].
      apply prop_eqb_eq in E. subst. contradiction.
Qed.

Lemma gene_predicate_text gene :
  gene_predicate gene = true -> is_str (text_of gene) = true.
Proof.
  destruct gene as [|s|kvs|vs]; try discriminate.
  unfold gene_predicate, text_of, getitem.
  destruct (lookup "@type" kvs) as [ty|]; [|discriminate].
  destruct (lookup "#text" kvs) as [tx|]; [|discriminate].
  destruct tx; try reflexivity; simpl; now rewrite !andb_false_r.
Qed.

Lemma flat_map_gene_stmts genes :
  flat_map gene_stmts genes = flat_map named_gene_stmts (map text_of genes).
Proof.
  induction genes as [|g genes IH]; [reflexivity|]. simpl. now rewrite IH.
Qed.

Lemma created_gene_stmts genes :
  created (flat_map gene_stmts genes) =
  map (fun g => {| nlabel := Gene; nprops := [("name", text_of g)] |}) genes.
Proof.
  induction genes as [|g genes IH]; [reflexivity|]. simpl. now rewrite IH.
Qed.

Lemma count_gene_nodes genes :
  length (filter (fun n => label_eqb Gene (nlabel n))
            (map (fun g => {| nlabel := Gene; nprops := [("name", text_of g)] |}) genes))
  = length genes.
Proof.
  induction genes as [|g genes IH]; [reflexivity|].
  simpl. f_equal. exact IH.
Qed.

(** C1, as the code has it.  On a document whose gene names are a sequence
    of elements with a type and a text, the Protein import followed by the
    Gene import succeeds and issues, after the creation of the root, one Gene
    creation and one FROM_GENE statement anchored at the root for every
    element that satisfies the predicate, in order, and nothing for the
    others.  Run on an empty store this creates exactly one Gene node for
    every selected element, and exactly one FROM_GENE edge for every selected
    element when no two selected elements carry the same text. *)
Theorem protein_then_gene_import (data : value) (genes : list value) :
  nav data ["uniprot"; "entry"; "gene"; "name"] = Ok (VList genes) ->
  forallb gene_element genes = true ->
  let m := insert_protein ;; insert_gene data in
  let g := exec_log (stmts (fst m)) in
  let selected := filter gene_predicate genes in
  snd m = Ok tt /\
  stmts (fst m) = root_created :: flat_map gene_stmts selected /\
  count_nodes Gene g = length selected /\
  (NoDup (map text_of selected) -> count_edges FROM_GENE g = length selected).
Proof.
  intros Hnav Hshape m g selected.
  assert (Hbody :
            (genes0 <- lift (let? v := nav data ["uniprot"; "entry"; "gene"; "name"] in py_iter v) ;;
             for_each InsertGene.body genes0) =
            (map Run (flat_map gene_stmts selected), Ok tt)).
  { rewrite Hnav. cbn [bindR py_iter]. rewrite bind_lift_ok.
    now apply for_each_gene_elements. }
  assert (Hres : snd m = Ok tt).
  { subst m. rewrite snd_bind. change (snd insert_protein) with (@Ok unit tt).
    cbv iota. unfold insert_gene. now rewrite result_frame, Hbody. }
  assert (Hlog : stmts (fst m) = root_created :: flat_map gene_stmts selected).
  { subst m. rewrite fst_bind, stmts_app.
    change (snd insert_protein) with (@Ok unit tt). cbv iota.
    unfold insert_gene. rewrite stmts_frame, Hbody. cbn [fst].
    now rewrite stmts_map_run. }
  split; [exact Hres|]. split; [exact Hlog|]. split.
  - subst g. rewrite Hlog. unfold exec_log.
    rewrite count_nodes_exec_from.
    change (created (root_created :: flat_map gene_stmts selected))
      with ({| nlabel := Protein; nprops := root_props |}
              :: created (flat_map gene_stmts selected)).
    rewrite created_gene_stmts. cbn [filter nlabel label_eqb].
    apply count_gene_nodes.
  - intros Hnd. subst g. rewrite Hlog. unfold exec_log, exec_from.
    cbn [fold_left]. fold (exec_from (exec_stmt empty_graph root_created)
                                     (flat_map gene_stmts selected)).
    rewrite flat_map_gene_stmts, gene_loop_counts; auto.
    + now rewrite length_map.
    + subst selected. clear. induction genes as [|x xs IH]; [reflexivity|].
      cbn [filter]. destruct (gene_predicate x) eqn:E; [|exact IH].
      cbn [map forallb]. now rewrite (gene_predicate_text _ E), IH.
Qed.

(** The scenario of the specification: the two selected gene names give two
    Gene nodes and two FROM_GENE edges. *)
Lemma two_selected_gene_names :
  let data := gene_document (VList [elem "synonym" "HNF3B"; elem "primary" "FOXA2"]) in
  let g := exec_log (stmts (fst (insert_protein ;; insert_gene data))) in
  count_nodes Gene g = 2 /\ count_edges FROM_GENE g = 2 /\
  nodes g = [{| nlabel := Protein; nprops := root_props |};
             {| nlabel := Gene; nprops := [("name", VStr "HNF3B")] |};
             {| nlabel := Gene; nprops := [("name", VStr "FOXA2")] |}] /\
  edges g = [{| esrc := 0; etype := FROM_GENE; edst := 1 |};
             {| esrc := 0; etype := FROM_GENE; edst := 2 |}].
Proof.
  destruct (protein_then_gene_import
              (gene_document (VList [elem "synonym" "HNF3B"; elem "primary" "FOXA2"]))
              [elem "synonym" "HNF3B"; elem "primary" "FOXA2"]
              eq_refl eq_refl) as (_ & _ & Hn & He).
  split; [exact Hn|]. split; [|split; reflexivity]. apply He. simpl.
  constructor; [|constructor; [|constructor]]; simpl; intuition discriminate.
Defined.

(** C1 as stated fails: two selected elements with the same text give two
    Gene nodes but three FROM_GENE edges, because the second relationship
    statement matches both Gene nodes of that name. *)
Lemma repeated_gene_name_multiplies_edges :
  let genes := [elem "synonym" "HNF3B"; elem "synonym" "HNF3B"] in
  let data := gene_document (VList genes) in
  let g := exec_log (stmts (fst (insert_protein ;; insert_gene data))) in
  nav data ["uniprot"; "entry"; "gene"; "name"] = Ok (VList genes) /\
  forallb gene_element genes = true /\
  length (filter gene_predicate genes) = 2 /\
  count_nodes Gene g = 2 /\
  count_edges FROM_GENE g = 3 /\
  count_edges FROM_GENE g <> length (filter gene_predicate genes).
Proof.
  repeat split; vm_compute; discriminate.
Qed.

(** ** Absent fields in the selection predicates *)

(** C3 as stated fails: a gene-name element without ['@type'] makes the
    condition of the Gene import raise a key error, which aborts the import. *)
Lemma gene_without_type_raises :
  let gene := VDict [("#text", VStr "FOXA2")] in
  InsertGene.selected gene = Raise (KeyError "@type") /\
  snd (insert_gene (gene_document (VList [gene]))) = Raise (KeyError "@type").
Proof. split; reflexivity. Qed.

(** C3, as the code has it.  The Feature condition reads ['position'] and
    ['@position'] with a default, so a feature with a location but no
    position, or a position without ['@position'], is skipped without an
    error; the Gene condition reads ['#text'] only when the type is
    'synonym' or 'primary', so an element of another type is skipped even
    without a text.  The fields read by subscript are required: a gene-name
    element without ['@type'], or of type 'synonym' or 'primary' without
    ['#text'], and a feature without ['location'], raise a key error. *)
Theorem absent_fields_in_conditions :
  (forall kvs loc,
      lookup "location" kvs = Some (VDict loc) ->
      lookup "position" loc = None ->
      InsertFeature.at_position (VDict kvs) = Ok false /\
      InsertFeature.body (VDict kvs) = ([], Ok tt)) /\
  (forall kvs loc pos,
      lookup "location" kvs = Some (VDict loc) ->
      lookup "position" loc = Some (VDict pos) ->
      lookup "@position" pos = None ->
      InsertFeature.at_position (VDict kvs) = Ok false /\
      InsertFeature.body (VDict kvs) = ([], Ok tt)) /\
  (forall kvs ty,
      lookup "@type" kvs = Some ty ->
      eq_str ty "synonym" = false ->
      eq_str ty "primary" = false ->
      InsertGene.selected (VDict kvs) = Ok false /\
      InsertGene.body (VDict kvs) = ([], Ok tt)) /\
  (forall kvs,
      lookup "@type" kvs = None ->
      InsertGene.selected (VDict kvs) = Raise (KeyError "@type")) /\
  (forall kvs ty,
      lookup "@type" kvs = Some ty ->
      eq_str ty "synonym" || eq_str ty "primary" = true ->
      lookup "#text" kvs = None ->
      InsertGene.selected (VDict kvs) = Raise (KeyError "#text")) /\
  (forall kvs,
      lookup "location" kvs = None ->
      InsertFeature.at_position (VDict kvs) = Raise (KeyError "location")).
Proof.
  repeat apply conj.
  - intros kvs loc Hl Hp.
    assert (E : InsertFeature.at_position (VDict kvs) = Ok false).
    { unfold InsertFeature.at_position, getitem. rewrite Hl. cbn [bindR dict_get].
      now rewrite Hp. }
    split; [exact E|]. unfold InsertFeature.body. now rewrite E.
  - intros kvs loc pos Hl Hp Ha.
    assert (E : InsertFeature.at_position (VDict kvs) = Ok false).
    { unfold InsertFeature.at_position, getitem. rewrite Hl. cbn [bindR dict_get].
      rewrite Hp. cbn [bindR dict_get]. now rewrite Ha. }
    split; [exact E|]. unfold InsertFeature.body. now rewrite E.
  - intros kvs ty Ht Hs Hp.
    assert (E : InsertGene.selected (VDict kvs) = Ok false).
    { unfold InsertGene.selected, getitem. rewrite Ht. cbn [bindR].
      rewrite Hs. cbn [bindR]. now rewrite Hp. }
    split; [exact E|]. unfold InsertGene.body. now rewrite E.
  - intros kvs Ht. unfold InsertGene.selected, getitem. now rewrite Ht.
  - intros kvs ty Ht Hor Hx. unfold InsertGene.selected, getitem.
    rewrite Ht, Hx. cbn [bindR].
    destruct (eq_str ty "synonym"); [reflexivity|]. cbn [bindR].
    simpl in Hor. now rewrite Hor.
  - intros kvs Hl. unfold InsertFeature.at_position, getitem. now rewrite Hl.
Qed.

(** C3 on concrete elements: a feature located by a range is skipped, a
    gene name without a type raises. *)
Lemma absent_fields_on_elements :
  InsertFeature.body
    (VDict [("@type", VStr "chain");
            ("location", VDict [("begin", VDict [("@position", VStr "1")])])])
  = ([], Ok tt) /\
  InsertGene.selected (VDict [("#text", VStr "FOXA2")]) = Raise (KeyError "@type").
Proof.
  destruct absent_fields_in_conditions as (H1 & _ & _ & H4 & _).
  split.
  - exact (proj2 (H1 [("@type", VStr "chain");
                      ("location", VDict [("begin", VDict [("@position", VStr "1")])])]
                     [("begin", VDict [("@position", VStr "1")])] eq_refl eq_refl)).
  - exact (H4 [("#text", VStr "FOXA2")] eq_refl).
Defined.

(** ** The Reference import and its Author cascade *)

Lemma key_of_mapping kvs :
  InsertReference.key_of (VDict kvs) = Ok (reference_key kvs).
Proof.
  unfold InsertReference.key_of, reference_key, py_in, getitem.
  destruct (lookup "@key" kvs); reflexivity.
Qed.

Lemma citation_attr_mapping kvs c attr :
  lookup "citation" kvs = Some (VDict c) ->
  InsertReference.citation_attr (VDict kvs) attr = Ok (citation_field c attr).
Proof.
  intros H. unfold InsertReference.citation_attr, citation_field, dict_get, getitem.
  rewrite H. cbn [bindR].
  destruct (lookup attr c) as [v|]; cbn [bindR is_none]; [|reflexivity].
  destruct (is_none v); reflexivity.
Qed.

Lemma citation_attr_absent kvs attr :
  lookup "citation" kvs = None ->
  InsertReference.citation_attr (VDict kvs) attr = Ok (VStr "").
Proof.
  intros H. unfold InsertReference.citation_attr, dict_get. now rewrite H.
Qed.

Lemma cascade_on_mapping kvs c id type name :
  lookup "citation" kvs = Some (VDict c) ->
  InsertReference.cascade (VDict kvs) id type name = cascade_of c id type name.
Proof.
  intros H. unfold InsertReference.cascade, cascade_of, getitem, py_in.
  rewrite H, bind_lift_ok.
  destruct (lookup "authorList" c) as [al|] eqn:E; cbv iota; rewrite bind_lift_ok;
    [|reflexivity].
  cbn [when bindR]. now rewrite E, bind_lift_ok.
Qed.

Lemma reference_body_on_mapping kvs c :
  lookup "citation" kvs = Some (VDict c) ->
  let id := reference_key kvs in
  let type := citation_field c "@type" in
  let name := citation_field c "@name" in
  let rest := cascade_of c id type name in
  InsertReference.body (VDict kvs) =
  (Run (InsertReference.query id type name)
   :: Run (InsertReference.query_relationship id_protein id type name)
   :: fst rest, snd rest).
Proof.
  intros H id type name rest. unfold InsertReference.body.
  rewrite key_of_mapping, bind_lift_ok.
  rewrite !(citation_attr_mapping _ _ _ H), !bind_lift_ok.
  unfold session_run. rewrite !bind_emit. cbn [fst snd].
  now rewrite (cascade_on_mapping _ _ _ _ _ H).
Qed.

Lemma author_body_on_entry id type name person :
  person_entry person = true ->
  InsertAuthor.body id type name person =
  (map Run (author_stmts id type name person), Ok tt).
Proof.
  destruct person as [|s|kvs|vs]; try discriminate.
  unfold InsertAuthor.body, author_stmts, name_of, getitem, person_entry.
  destruct (lookup "@name" kvs); [|discriminate].
  intros _. now rewrite bind_lift_ok.
Qed.

Lemma for_each_person_entries id type name persons :
  forallb person_entry persons = true ->
  for_each (InsertAuthor.body id type name) persons =
  (map Run (flat_map (author_stmts id type name) persons), Ok tt).
Proof.
  induction persons as [|p persons IH]; [reflexivity|].
  cbn [forallb for_each]. intros H.
  apply andb_true_iff in H. destruct H as [Hp Hrest].
  now rewrite (IH Hrest), (author_body_on_entry _ _ _ _ Hp).
Qed.

Lemma insert_author_on_persons al persons id type name :
  person_sequence al = Some persons ->
  forallb person_entry persons = true ->
  insert_author (VDict al) id type name =
  ([Invoke IAuthor; DriverOpen; SessionOpen]
     ++ map Run (flat_map (author_stmts id type name) persons)
     ++ [SessionClose; DriverClose], Ok tt).
Proof.
  intros Hp Hshape. unfold insert_author, py_in, getitem.
  unfold person_sequence in Hp.
  destruct (lookup "person" al) as [[| |kvs|vs]|]; try discriminate.
  - injection Hp as ->.
    rewrite bind_lift_ok. cbn [when bindR py_iter]. rewrite bind_lift_ok.
    rewrite (for_each_person_entries _ _ _ _ Hshape).
    unfold bind, with_session.
    cbn [fst snd invoke open_database close_database emit app].
    now rewrite <- app_assoc.
  - injection Hp as <-. reflexivity.
Qed.

Lemma author_stmts_counts id type name persons :
  let log := flat_map (author_stmts id type name) persons in
  length (filter is_author_creation log) = length persons /\
  length (filter is_has_author log) = length persons /\
  Forall (anchored_at id type name) log.
Proof.
  induction persons as [|p persons (IH1 & IH2 & IH3)]; simpl.
  - repeat split. constructor.
  - rewrite IH1, IH2. repeat split.
    constructor; [exact I|]. constructor; [|exact IH3]. simpl. auto.
Qed.

(** C4.  For a reference whose citation has an author list with a sequence
    of persons (none when the list has no 'person' entry), each a mapping
    with a name, the turn of the loop for that
    reference succeeds and issues, after the reference's own two statements,
    one Author creation and one HAS_AUTHOR statement per person, in order:
    as many Author creations and as many HAS_AUTHOR statements as persons,
    each HAS_AUTHOR statement matching the Reference by this reference's own
    id, type and name. *)
Theorem author_cascade_of_reference
        (kvs c al : list (string * value)) (persons : list value) :
  lookup "citation" kvs = Some (VDict c) ->
  lookup "authorList" c = Some (VDict al) ->
  person_sequence al = Some persons ->
  forallb person_entry persons = true ->
  let id := reference_key kvs in
  let type := citation_field c "@type" in
  let name := citation_field c "@name" in
  let r := InsertReference.body (VDict kvs) in
  snd r = Ok tt /\
  stmts (fst r) =
    InsertReference.query id type name
    :: InsertReference.query_relationship id_protein id type name
    :: flat_map (author_stmts id type name) persons /\
  length (filter is_author_creation (stmts (fst r))) = length persons /\
  length (filter is_has_author (stmts (fst r))) = length persons /\
  Forall (anchored_at id type name) (stmts (fst r)).
Proof.
  intros Hc Hal Hp Hshape id type name r.
  assert (E : r =
              (Run (InsertReference.query id type name)
               :: Run (InsertReference.query_relationship id_protein id type name)
               :: [Invoke IAuthor; DriverOpen; SessionOpen]
               ++ map Run (flat_map (author_stmts id type name) persons)
               ++ [SessionClose; DriverClose], Ok tt)).
  { subst r. rewrite (reference_body_on_mapping _ _ Hc). unfold cascade_of.
    rewrite Hal.
    now rewrite (insert_author_on_persons _ _ _ _ _ Hp Hshape). }
  assert (L : stmts (fst r) =
              InsertReference.query id type name
              :: InsertReference.query_relationship id_protein id type name
              :: flat_map (author_stmts id type name) persons).
  { rewrite E. cbn [fst]. unfold stmts at 1. cbn [flat_map stmt_of app].
    fold (stmts (map Run (flat_map (author_stmts id type name) persons)
                   ++ [SessionClose; DriverClose])).
    rewrite stmts_app, stmts_map_run. cbn. now rewrite app_nil_r. }
  destruct (author_stmts_counts id type name persons) as (N1 & N2 & N3).
  split; [now rewrite E|]. split; [exact L|]. rewrite L.
  cbn [filter is_author_creation is_has_author InsertReference.query
           InsertReference.query_relationship].
  split; [exact N1|]. split; [exact N2|].
  constructor; [exact I|]. constructor; [exact I|]. exact N3.
Qed.

(** C4 on the first reference of the sample document, which has two
    persons. *)
Lemma sample_reference_cascade :
  let persons := [VDict [("@name", VStr "A")]; VDict [("@name", VStr "B")]] in
  let al := [("person", VList persons)] in
  let c := [("@type", VStr "journal article"); ("@name", VStr "Genomics");
            ("authorList", VDict al)] in
  let log := stmts (fst (InsertReference.body (VDict [("@key", VStr "1"); ("citation", VDict c)]))) in
  length (filter is_author_creation log) = 2 /\
  length (filter is_has_author log) = 2 /\
  Forall (anchored_at (VStr "1") (VStr "journal article") (VStr "Genomics")) log.
Proof.
  intros persons al c log.
  destruct (author_cascade_of_reference
              [("@key", VStr "1"); ("citation", VDict c)] c al persons
              eq_refl eq_refl eq_refl eq_refl) as (_ & _ & H1 & H2 & H3).
  repeat split; assumption.
Defined.

(** ** A single object where a sequence is expected *)

(** C7 as stated fails: a document with exactly one gene name, which the
    parser delivers as a mapping and not as a one-element sequence, is not
    imported, although its element satisfies the predicate and the
    one-element sequence is imported. *)
Lemma single_gene_name_not_imported :
  let gene := elem "primary" "FOXA2" in
  insert_gene (gene_document gene) = aborted IGene TypeError /\
  stmts (fst (insert_gene (gene_document gene))) = [] /\
  snd (insert_gene (gene_document (VList [gene]))) = Ok tt /\
  stmts (fst (insert_gene (gene_document (VList [gene])))) = gene_stmts gene.
Proof. repeat split. Qed.

(** C7, as the code has it.  No sub-importer normalizes what it loops over.
    Where the document has a single object (a mapping with at least one key)
    in place of a sequence, the loop ranges over the keys of the mapping and
    the first key, a string, makes the sub-importer raise before it issues
    any statement: a type error in the Gene, Feature, Author and Organism
    imports, and in the Reference import a type error when the key contains
    '@key' and an attribute error otherwise.  A one-element sequence of gene
    names is filtered and, on match, imported. *)
Theorem single_object_is_not_normalized :
  (forall data k v kvs,
      nav data ["uniprot"; "entry"; "gene"; "name"] = Ok (VDict ((k, v) :: kvs)) ->
      insert_gene data = aborted IGene TypeError) /\
  (forall data k v kvs,
      nav data ["uniprot"; "entry"; "feature"] = Ok (VDict ((k, v) :: kvs)) ->
      insert_feature data = aborted IFeature TypeError) /\
  (forall data k v kvs,
      nav data ["uniprot"; "entry"; "reference"] = Ok (VDict ((k, v) :: kvs)) ->
      insert_reference data =
      aborted IReference (if contains k "@key" then TypeError else AttributeError)) /\
  (forall al k v kvs id type name,
      lookup "person" al = Some (VDict ((k, v) :: kvs)) ->
      insert_author (VDict al) id type name = aborted IAuthor TypeError) /\
  (forall data k v kvs,
      nav data ["uniprot"; "entry"; "organism"; "name"] = Ok (VDict ((k, v) :: kvs)) ->
      insert_organism data = aborted IOrganism TypeError) /\
  (forall data gene,
      nav data ["uniprot"; "entry"; "gene"; "name"] = Ok (VList [gene]) ->
      gene_element gene = true ->
      snd (insert_gene data) = Ok tt /\
      stmts (fst (insert_gene data)) =
      if gene_predicate gene then gene_stmts gene else []).
Proof.
  repeat apply conj.
  - intros data k v kvs H. unfold insert_gene. now rewrite H.
  - intros data k v kvs H. unfold insert_feature. now rewrite H.
  - intros data k v kvs H. unfold insert_reference. rewrite H.
    cbn [bindR py_iter map fst]. rewrite bind_lift_ok. cbn [for_each].
    unfold InsertReference.body at 1, InsertReference.key_of, py_in.
    cbn [bindR]. destruct (contains k "@key"); reflexivity.
  - intros al k v kvs id type name H. unfold insert_author, py_in, getitem.
    now rewrite H.
  - intros data k v kvs H. unfold insert_organism. now rewrite H.
  - intros data gene H Hg. unfold insert_gene.
    rewrite result_frame, stmts_frame, H. cbn [bindR py_iter].
    rewrite bind_lift_ok. cbn [for_each].
    rewrite (gene_body_on_element _ Hg). unfold bind. cbn [fst snd ret].
    rewrite app_nil_r, stmts_map_run. now split.
Qed.

(** C7 on the document with the single gene name FOXA2. *)
Lemma single_gene_name_aborts :
  insert_gene (gene_document (elem "primary" "FOXA2")) = aborted IGene TypeError.
Proof.
  destruct single_object_is_not_normalized as (H & _).
  exact (H (gene_document (elem "primary" "FOXA2")) "@type" (VStr "primary")
           [("#text", VStr "FOXA2")] eq_refl).
Defined.

(** ** Drivers and sessions *)

Lemma releases_bind A B (m : M A) (k : A -> M B) :
  releases m -> (forall a, releases (k a)) -> releases (bind m k).
Proof.
  intros (Hs & Hd & Hok) Hk. unfold releases.
  rewrite fst_bind, snd_bind, !occurrences_app.
  destruct (snd m) as [a|e].
  - destruct (Hk a) as (Ks & Kd & Kok). specialize (Hok a eq_refl).
    repeat split; try lia. intros b Hb. specialize (Kok b Hb). lia.
  - cbn. repeat split; try lia. discriminate.
Qed.

Lemma releases_lift A (r : result A) : releases (lift r).
Proof. repeat split; auto. Qed.

Lemma releases_ret A (a : A) : releases (ret a).
Proof. repeat split; auto. Qed.

Lemma releases_run q : releases (session_run q).
Proof. repeat split; auto. Qed.

Lemma releases_when b (m : M unit) : releases m -> releases (when b m).
Proof. destruct b; [auto | intros _; apply releases_ret]. Qed.

Lemma releases_for_each A (body : A -> M unit) xs :
  (forall x, releases (body x)) -> releases (for_each body xs).
Proof.
  intros Hb. induction xs as [|x xs IH]; cbn [for_each].
  - apply releases_ret.
  - apply releases_bind; auto.
Qed.

Lemma frame_trace i (body : M unit) :
  fst (invoke i ;; open_database ;; with_session body ;; close_database) =
  [Invoke i; DriverOpen] ++ [SessionOpen] ++ fst body ++ [SessionClose]
    ++ match snd body with Ok _ => [DriverClose] | Raise _ => [] end.
Proof.
  unfold invoke, open_database. rewrite !bind_emit. cbn [fst app].
  rewrite fst_bind. unfold with_session. cbn [fst snd app].
  rewrite <- app_assoc. destruct (snd body); reflexivity.
Qed.

(** Around a releasing body the session is always closed, and the driver is
    closed exactly when the body raised nothing: [close_database] is the
    statement after the [with] block. *)
Lemma frame_releases i (body : M unit) :
  releases body ->
  let m := invoke i ;; open_database ;; with_session body ;; close_database in
  releases m /\ closes_driver_only_on_success m.
Proof.
  intros (Hs & Hd & Hok) m. subst m.
  unfold releases, closes_driver_only_on_success, open_sessions, open_drivers.
  rewrite result_frame, frame_trace, !occurrences_app.
  destruct (snd body) as [a|e].
  - specialize (Hok a eq_refl). unfold occurrences in *.
    cbn [filter event_eqb length app]. repeat split; try lia.
  - unfold occurrences in *.
    cbn [filter event_eqb length app]. repeat split; try lia. discriminate.
Qed.

Ltac releases_walk :=
  repeat first
    [ apply releases_for_each; intros ?
    | apply releases_when
    | apply releases_lift
    | apply releases_run
    | apply releases_bind; [|intros ?] ].

Lemma insert_protein_releases :
  releases insert_protein /\ closes_driver_only_on_success insert_protein.
Proof. apply frame_releases. releases_walk. Qed.

Lemma insert_gene_releases data :
  releases (insert_gene data) /\ closes_driver_only_on_success (insert_gene data).
Proof. apply frame_releases. unfold InsertGene.body. releases_walk. Qed.

Lemma insert_feature_releases data :
  releases (insert_feature data) /\
  closes_driver_only_on_success (insert_feature data).
Proof. apply frame_releases. unfold InsertFeature.body. releases_walk. Qed.

Lemma insert_author_releases authorList id type author :
  releases (insert_author authorList id type author) /\
  closes_driver_only_on_success (insert_author authorList id type author).
Proof. apply frame_releases. unfold InsertAuthor.body. releases_walk. Qed.

Lemma insert_reference_releases data :
  releases (insert_reference data) /\
  closes_driver_only_on_success (insert_reference data).
Proof.
  apply frame_releases.
  apply releases_bind; [apply releases_lift | intros references].
  apply releases_for_each. intros reference.
  unfold InsertReference.body, InsertReference.cascade.
  do 7 (apply releases_bind;
        [first [apply releases_lift | apply releases_run] | intros ?]).
  apply releases_when.
  apply releases_bind; [apply releases_lift | intros authorList].
  apply insert_author_releases.
Qed.

Lemma insert_fullname_releases data :
  releases (insert_fullname data) /\
  closes_driver_only_on_success (insert_fullname data).
Proof. apply frame_releases. releases_walk. Qed.

Lemma insert_organism_releases data :
  releases (insert_organism data) /\
  closes_driver_only_on_success (insert_organism data).
Proof. apply frame_releases. unfold InsertOrganism.body. releases_walk. Qed.

(** C8, where the code falls short.  Every sub-importer closes its session
    on every path, but closes its driver only when it returns: when it
    raises, at least one driver (its own) is left open.  The Gene import on
    the document with the single gene name FOXA2 is such a run: it raises a
    type error with its session closed and its driver open. *)
Theorem driver_left_open_when_import_raises :
  closes_driver_only_on_success insert_protein /\
  (forall data,
      closes_driver_only_on_success (insert_gene data) /\
      closes_driver_only_on_success (insert_feature data) /\
      closes_driver_only_on_success (insert_reference data) /\
      closes_driver_only_on_success (insert_fullname data) /\
      closes_driver_only_on_success (insert_organism data)) /\
  (forall authorList id type author,
      closes_driver_only_on_success (insert_author authorList id type author)) /\
  (let m := insert_gene (gene_document (elem "primary" "FOXA2")) in
   snd m = Raise TypeError /\
   open_sessions (fst m) = 0 /\
   open_drivers (fst m) = 1).
Proof.
  split; [apply insert_protein_releases|].
  split; [intros data; repeat split|].
  - apply insert_gene_releases.
  - apply insert_gene_releases.
  - apply insert_feature_releases.
  - apply insert_feature_releases.
  - apply insert_reference_releases.
  - apply insert_reference_releases.
  - apply insert_fullname_releases.
  - apply insert_fullname_releases.
  - apply insert_organism_releases.
  - apply insert_organism_releases.
  - split; [intros; apply insert_author_releases | repeat split].
Qed.

(** ** The Organism import *)

Lemma constant_taxonomy_nil : constant_taxonomy [].
Proof. constructor. Qed.

Lemma constant_taxonomy_app a b :
  constant_taxonomy a -> constant_taxonomy b -> constant_taxonomy (a ++ b).
Proof.
  unfold constant_taxonomy. intros Ha Hb. rewrite stmts_app.
  apply Forall_app. now split.
Qed.

Lemma insert_organism_constant_taxonomy data :
  constant_taxonomy (fst (insert_organism data)).
Proof.
  unfold constant_taxonomy, insert_organism. rewrite stmts_frame.
  fold (constant_taxonomy
          (fst (organisms <- lift (let? v := nav data ["uniprot"; "entry"; "organism"; "name"] in py_iter v) ;;
                for_each InsertOrganism.body organisms))).
  apply (closed_bind constant_taxonomy constant_taxonomy_nil constant_taxonomy_app);
    [apply constant_taxonomy_nil | intros organisms].
  apply (closed_for_each constant_taxonomy constant_taxonomy_nil constant_taxonomy_app).
  intros organism. unfold InsertOrganism.body.
  apply (closed_bind constant_taxonomy constant_taxonomy_nil constant_taxonomy_app);
    [apply constant_taxonomy_nil | intros text].
  apply (closed_when constant_taxonomy constant_taxonomy_nil).
  apply (closed_bind constant_taxonomy constant_taxonomy_nil constant_taxonomy_app);
    [apply constant_taxonomy_nil | intros name].
  repeat constructor.
Qed.

Lemma eq_str_eq v s : eq_str v s = true -> v = VStr s.
Proof.
  destruct v; try discriminate. simpl. intros H.
  apply String.eqb_eq in H. now subst.
Qed.

Lemma organism_body_on_element organism :
  organism_element organism = true ->
  InsertOrganism.body organism =
  (map Run (if is_homo_sapiens organism then homo_sapiens_stmts else []), Ok tt).
Proof.
  destruct organism as [|s|kvs|vs]; try discriminate.
  unfold organism_element, InsertOrganism.body, is_homo_sapiens, text_of, getitem.
  destruct (lookup "#text" kvs) as [tx|]; [|discriminate].
  intros _. rewrite bind_lift_ok.
  destruct (eq_str tx "Homo sapiens") eqn:E; [|reflexivity].
  apply eq_str_eq in E. subst tx. cbn [when]. now rewrite bind_lift_ok.
Qed.

Lemma for_each_organism_elements organisms :
  forallb organism_element organisms = true ->
  for_each InsertOrganism.body organisms =
  (map Run (flat_map (fun _ => homo_sapiens_stmts) (filter is_homo_sapiens organisms)),
   Ok tt).
Proof.
  induction organisms as [|o organisms IH]; [reflexivity|].
  cbn [forallb for_each filter]. intros H.
  apply andb_true_iff in H. destruct H as [Ho Hrest].
  rewrite (organism_body_on_element _ Ho), (IH Hrest). unfold bind. cbn [fst snd].
  destruct (is_homo_sapiens o); reflexivity.
Qed.

(** * Further properties *)

(** ** The Feature import *)

Lemma feature_body_on_element feature :
  feature_element feature = true ->
  InsertFeature.body feature =
  (map Run (if feature_predicate feature then phosphoserine_stmts else []), Ok tt).
Proof.
  destruct feature as [|s|kvs|vs]; try discriminate.
  unfold feature_element, InsertFeature.body, InsertFeature.at_position,
    feature_predicate, position_attr, field, getitem.
  destruct (lookup "location" kvs) as [[| |loc|]|]; try discriminate.
  cbn [bindR dict_get].
  destruct (lookup "position" loc) as [[| |pos|]|]; try discriminate;
    cbn [bindR dict_get lookup eq_str andb]; [|intros _; now rewrite bind_lift_ok].
  destruct (lookup "@position" pos) as [p|];
    cbn [bindR eq_str andb]; [|intros _; now rewrite bind_lift_ok].
  destruct (eq_str p "307"); cbn [andb]; [|intros _; now rewrite bind_lift_ok].
  destruct (lookup "@description" kvs) as [d|]; [|discriminate].
  destruct (lookup "@type" kvs) as [t|]; [|discriminate].
  intros _. rewrite !bind_lift_ok. cbn [when].
  destruct (eq_str d "Phosphoserine") eqn:Ed; cbn [andb when]; [|reflexivity].
  destruct (eq_str t "modified residue") eqn:Et; cbn [andb when]; [|reflexivity].
  apply eq_str_eq in Ed, Et. subst. reflexivity.
Qed.

Lemma for_each_feature_elements features :
  forallb feature_element features = true ->
  for_each InsertFeature.body features =
  (map Run (flat_map (fun _ => phosphoserine_stmts) (filter feature_predicate features)),
   Ok tt).
Proof.
  induction features as [|f features IH]; [reflexivity|].
  cbn [forallb for_each filter]. intros H.
  apply andb_true_iff in H. destruct H as [Hf Hrest].
  rewrite (feature_body_on_element _ Hf), (IH Hrest). unfold bind. cbn [fst snd].
  destruct (feature_predicate f); reflexivity.
Qed.

(** X1.  On a document whose features are a sequence of features of the
    expected shape, the Feature import succeeds and issues a Feature
    creation (name 'Phosphoserine', type 'modified residue') with its
    HAS_FEATURE statement for exactly the features at position '307' with
    that description and type, and nothing for the others; run after the
    root was created on an empty store, that is one Feature node each. *)
Theorem feature_import (data : value) (features : list value) :
  nav data ["uniprot"; "entry"; "feature"] = Ok (VList features) ->
  forallb feature_element features = true ->
  let selected := filter feature_predicate features in
  snd (insert_feature data) = Ok tt /\
  stmts (fst (insert_feature data)) = flat_map (fun _ => phosphoserine_stmts) selected /\
  count_nodes Feature
    (exec_log (root_created :: stmts (fst (insert_feature data)))) = length selected.
Proof.
  intros Hnav Hshape selected.
  assert (Hbody :
            (features0 <- lift (let? v := nav data ["uniprot"; "entry"; "feature"] in py_iter v) ;;
             for_each InsertFeature.body features0) =
            (map Run (flat_map (fun _ => phosphoserine_stmts) selected), Ok tt)).
  { rewrite Hnav. cbn [bindR py_iter]. rewrite bind_lift_ok.
    now apply for_each_feature_elements. }
  assert (Hlog : stmts (fst (insert_feature data)) =
                 flat_map (fun _ => phosphoserine_stmts) selected).
  { unfold insert_feature. rewrite stmts_frame, Hbody. apply stmts_map_run. }
  split; [unfold insert_feature; now rewrite result_frame, Hbody|].
  split; [exact Hlog|].
  rewrite Hlog. unfold exec_log. rewrite count_nodes_exec_from.
  cbn [count_nodes empty_graph nodes filter length Nat.add].
  change (created (root_created :: flat_map (fun _ => phosphoserine_stmts) selected))
    with ({| nlabel := Protein; nprops := root_props |}
            :: created (flat_map (fun _ => phosphoserine_stmts) selected)).
  cbn [filter nlabel label_eqb].
  clear. induction selected as [|f fs IH]; [reflexivity|].
  simpl. f_equal. exact IH.
Qed.

(** X1 on the sample document: of its two features only the phosphoserine
    at position 307 is imported. *)
Lemma sample_feature_import :
  snd (insert_feature sample_document) = Ok tt /\
  stmts (fst (insert_feature sample_document)) = phosphoserine_stmts.
Proof.
  destruct (feature_import sample_document
              [VDict [("@type", VStr "modified residue");
                      ("@description", VStr "Phosphoserine");
                      ("location", VDict [("position", VDict [("@position", VStr "307")])])];
               VDict [("@type", VStr "chain");
                      ("location", VDict [("begin", VDict [("@position", VStr "1")])])]]
              eq_refl eq_refl) as (H1 & H2 & _).
  split; [exact H1 | exact H2].
Defined.

(** X2.  A feature at position '307' is read for its description and its
    type before they are compared: when it has no description the Feature
    import raises a key error whatever its type, also when the feature would
    not have been selected, and issues nothing for it. *)
Theorem feature_at_307_needs_description (kvs loc pos : list (string * value)) :
  lookup "location" kvs = Some (VDict loc) ->
  lookup "position" loc = Some (VDict pos) ->
  lookup "@position" pos = Some (VStr "307") ->
  lookup "@description" kvs = None ->
  InsertFeature.body (VDict kvs) = ([], Raise (KeyError "@description")).
Proof.
  intros Hl Hp Ha Hd.
  unfold InsertFeature.body, InsertFeature.at_position, getitem.
  rewrite Hl. cbn [bindR dict_get]. rewrite Hp. cbn [bindR dict_get].
  rewrite Ha. cbn [bindR eq_str]. rewrite bind_lift_ok. cbn [when].
  now rewrite Hd.
Qed.

Lemma variant_at_307_without_description :
  InsertFeature.body
    (VDict [("@type", VStr "sequence variant");
            ("location", VDict [("position", VDict [("@position", VStr "307")])])])
  = ([], Raise (KeyError "@description")).
Proof.
  exact (feature_at_307_needs_description
           [("@type", VStr "sequence variant");
            ("location", VDict [("position", VDict [("@position", VStr "307")])])]
           [("position", VDict [("@position", VStr "307")])]
           [("@position", VStr "307")]
           eq_refl eq_refl eq_refl eq_refl).
Defined.

(** ** The FullName import *)

(** X3.  When the document has a recommended full name, the FullName import
    succeeds; it issues the FullName creation and its HAS_FULL_NAME
    statement when that name is exactly the string 'Hepatocyte nuclear
    factor 3-beta', and nothing for any other value (another string, or a
    mapping as the parser gives for a name with attributes). *)
Theorem fullname_import (data full : value) :
  nav data InsertFullName.path = Ok full ->
  snd (insert_fullname data) = Ok tt /\
  stmts (fst (insert_fullname data)) =
  if eq_str full recommended_name then fullname_stmts else [].
Proof.
  intros Hnav. unfold insert_fullname.
  rewrite result_frame, stmts_frame, Hnav, bind_lift_ok.
  fold recommended_name.
  destruct (eq_str full recommended_name) eqn:E; cbn [when]; [|now split].
  rewrite bind_lift_ok. apply eq_str_eq in E. subst full. now split.
Qed.

(** X3 on a full name that carries an attribute: nothing is imported. *)
Lemma attributed_fullname_not_imported :
  let data :=
    VDict [("uniprot", VDict [("entry", VDict [("protein", VDict [("recommendedName",
      VDict [("fullName", VDict [("@evidence", VStr "1");
                                 ("#text", VStr "Hepatocyte nuclear factor 3-beta")])])])])])] in
  snd (insert_fullname data) = Ok tt /\ stmts (fst (insert_fullname data)) = [].
Proof.
  intros data.
  exact (fullname_import data
           (VDict [("@evidence", VStr "1");
                   ("#text", VStr "Hepatocyte nuclear factor 3-beta")]) eq_refl).
Defined.

(** ** Loops *)

(** A loop whose turns all succeed succeeds, with the traces of its turns in
    order. *)
Lemma for_each_all_ok A (body : A -> M unit) (xs : list A) :
  Forall (fun x => snd (body x) = Ok tt) xs ->
  for_each body xs = (flat_map (fun x => fst (body x)) xs, Ok tt).
Proof.
  induction 1 as [|x xs Hx _ IH]; [reflexivity|].
  cbn [for_each flat_map]. unfold bind. now rewrite Hx, IH.
Qed.

(** A loop stops at the first turn that raises: the turns before it have
    run, the turns after it never do. *)
Lemma for_each_stops A (body : A -> M unit) (pre : list A) (bad : A) (post : list A) e :
  Forall (fun x => snd (body x) = Ok tt) pre ->
  snd (body bad) = Raise e ->
  for_each body (pre ++ bad :: post) =
  (flat_map (fun x => fst (body x)) pre ++ fst (body bad), Raise e).
Proof.
  intros Hpre Hbad. induction Hpre as [|x xs Hx _ IH].
  - cbn [app for_each flat_map]. unfold bind. now rewrite Hbad.
  - cbn [app for_each flat_map]. unfold bind. rewrite Hx, IH. cbn [fst snd].
    now rewrite app_assoc.
Qed.

Lemma stmts_flat_map A (f : A -> list event) (xs : list A) :
  stmts (flat_map f xs) = flat_map (fun x => stmts (f x)) xs.
Proof.
  induction xs as [|x xs IH]; [reflexivity|].
  cbn [flat_map]. now rewrite stmts_app, IH.
Qed.

(** ** The Reference import on a whole document *)

Lemma reference_body_on_element reference :
  reference_element reference = true ->
  snd (InsertReference.body reference) = Ok tt /\
  stmts (fst (InsertReference.body reference)) = reference_stmts reference.
Proof.
  destruct reference as [|s|kvs|vs]; try discriminate.
  unfold reference_element, reference_stmts, authors_of, citation_of, field, getitem.
  destruct (lookup "citation" kvs) as [[| |c|]|] eqn:Hc; try discriminate.
  rewrite (reference_body_on_mapping _ _ Hc). unfold cascade_of.
  destruct (lookup "authorList" c) as [[| |al|]|]; try discriminate.
  - destruct (person_sequence al) as [persons|] eqn:Hp; [|discriminate].
    intros Hshape. rewrite (insert_author_on_persons _ _ _ _ _ Hp Hshape).
    split; [reflexivity|]. cbn [fst]. unfold stmts at 1.
    cbn [flat_map stmt_of app].
    fold (stmts (map Run (flat_map (author_stmts (reference_key kvs)
                                      (citation_field c "@type")
                                      (citation_field c "@name")) persons)
                   ++ [SessionClose; DriverClose])).
    rewrite stmts_app, stmts_map_run. cbn. now rewrite app_nil_r.
  - intros _. split; reflexivity.
Qed.

(** X4.  On a document whose references are a sequence of references of the
    expected shape, the Reference import succeeds and issues, reference by
    reference in document order, the reference's creation and HAS_REFERENCE
    statement followed at once by the creations and HAS_AUTHOR statements of
    its own authors; one Reference creation per reference, none skipped. *)
Theorem reference_import (data : value) (references : list value) :
  nav data ["uniprot"; "entry"; "reference"] = Ok (VList references) ->
  forallb reference_element references = true ->
  snd (insert_reference data) = Ok tt /\
  stmts (fst (insert_reference data)) = flat_map reference_stmts references /\
  length (filter is_reference_creation (stmts (fst (insert_reference data)))) =
  length references /\
  length (filter is_author_creation (stmts (fst (insert_reference data)))) =
  length (flat_map authors_of references).
Proof.
  intros Hnav Hshape.
  assert (Hall : Forall (fun r => snd (InsertReference.body r) = Ok tt) references).
  { apply Forall_forall. intros r Hr.
    apply (reference_body_on_element r).
    rewrite forallb_forall in Hshape. now apply Hshape. }
  assert (Hbody :
            (references0 <- lift (let? v := nav data ["uniprot"; "entry"; "reference"] in py_iter v) ;;
             for_each InsertReference.body references0) =
            (flat_map (fun r => fst (InsertReference.body r)) references, Ok tt)).
  { rewrite Hnav. cbn [bindR py_iter]. rewrite bind_lift_ok.
    now apply for_each_all_ok. }
  assert (Hlog : stmts (fst (insert_reference data)) = flat_map reference_stmts references).
  { unfold insert_reference. rewrite stmts_frame, Hbody. cbn [fst].
    rewrite stmts_flat_map. clear Hbody Hall Hnav.
    induction references as [|r rs IH]; [reflexivity|].
    cbn [forallb] in Hshape. apply andb_true_iff in Hshape. destruct Hshape as [Hr Hrs].
    cbn [flat_map]. rewrite (IH Hrs).
    now rewrite (proj2 (reference_body_on_element r Hr)). }
  split; [unfold insert_reference; now rewrite result_frame, Hbody|].
  split; [exact Hlog|]. rewrite Hlog. clear Hlog Hbody Hall Hnav.
  induction references as [|r rs IH]; [split; reflexivity|].
  cbn [forallb] in Hshape. apply andb_true_iff in Hshape. destruct Hshape as [Hr Hrs].
  destruct (IH Hrs) as (IH1 & IH2).
  cbn [flat_map]. rewrite !filter_app, !length_app, IH1, IH2.
  destruct r as [|s|kvs|vs]; try discriminate.
  destruct (author_stmts_counts (reference_key kvs)
              (citation_field (citation_of (VDict kvs)) "@type")
              (citation_field (citation_of (VDict kvs)) "@name")
              (authors_of (VDict kvs))) as (N1 & _ & _).
  cbv zeta in N1.
  cbn [reference_stmts filter is_reference_creation is_author_creation
         InsertReference.query InsertReference.query_relationship length].
  rewrite N1. split; [|reflexivity].
  cbn [Nat.add]. f_equal.
  set (id := reference_key kvs).
  set (type := citation_field _ "@type"). set (name := citation_field _ "@name").
  clearbody id type name. clear.
  induction (authors_of (VDict kvs)) as [|p ps IH]; [reflexivity|]. exact IH.
Qed.

(** X4 on the sample document: two references, the first with two
    authors. *)
Lemma sample_reference_import :
  snd (insert_reference sample_document) = Ok tt /\
  length (filter is_reference_creation (stmts (fst (insert_reference sample_document)))) = 2 /\
  length (filter is_author_creation (stmts (fst (insert_reference sample_document)))) = 2.
Proof.
  destruct (reference_import sample_document (references_of sample_document)
              eq_refl eq_refl) as (H1 & _ & H3 & H4).
  repeat split; assumption.
Defined.

(** ** A bad element in the middle of the gene names *)

(** X5.  The Gene import stops at the first gene-name element on which its
    condition raises: it raises that exception, the selected elements before
    it have been imported and stay, and no element after it is imported,
    selected or not. *)
Theorem gene_import_stops_at_bad_element
        (data : value) (pre : list value) (bad : value) (post : list value) (e : exn) :
  nav data ["uniprot"; "entry"; "gene"; "name"] = Ok (VList (pre ++ bad :: post)) ->
  forallb gene_element pre = true ->
  InsertGene.selected bad = Raise e ->
  snd (insert_gene data) = Raise e /\
  stmts (fst (insert_gene data)) = flat_map gene_stmts (filter gene_predicate pre).
Proof.
  intros Hnav Hpre Hbad.
  assert (Hall : Forall (fun g => snd (InsertGene.body g) = Ok tt) pre).
  { apply Forall_forall. intros g Hg. rewrite forallb_forall in Hpre.
    now rewrite (gene_body_on_element g (Hpre g Hg)). }
  assert (Hb : InsertGene.body bad = ([], Raise e)).
  { unfold InsertGene.body. now rewrite Hbad. }
  assert (Hbody :
            (genes <- lift (let? v := nav data ["uniprot"; "entry"; "gene"; "name"] in py_iter v) ;;
             for_each InsertGene.body genes) =
            (flat_map (fun g => fst (InsertGene.body g)) pre, Raise e)).
  { rewrite Hnav. cbn [bindR py_iter]. rewrite bind_lift_ok.
    rewrite (for_each_stops _ InsertGene.body pre bad post e Hall); [|now rewrite Hb].
    now rewrite Hb, app_nil_r. }
  unfold insert_gene. rewrite result_frame, stmts_frame, Hbody. cbn [fst snd].
  split; [reflexivity|]. rewrite stmts_flat_map. clear Hbody Hall Hnav.
  induction pre as [|g pre IH]; [reflexivity|].
  cbn [forallb] in Hpre. apply andb_true_iff in Hpre. destruct Hpre as [Hg Hrest].
  cbn [flat_map filter]. rewrite (IH Hrest), (gene_body_on_element _ Hg).
  cbn [fst]. rewrite stmts_map_run.
  destruct (gene_predicate g); reflexivity.
Qed.

(** X5 on three gene names of which the second has no type: FOXA2 is
    imported, HNF3B after the bad element is not. *)
Lemma gene_import_cut_short :
  let data := gene_document (VList [elem "primary" "FOXA2";
                                    VDict [("#text", VStr "TCF3B")];
                                    elem "synonym" "HNF3B"]) in
  snd (insert_gene data) = Raise (KeyError "@type") /\
  stmts (fst (insert_gene data)) = gene_stmts (elem "primary" "FOXA2").
Proof.
  intros data.
  exact (gene_import_stops_at_bad_element data
           [elem "primary" "FOXA2"] (VDict [("#text", VStr "TCF3B")])
           [elem "synonym" "HNF3B"] (KeyError "@type") eq_refl eq_refl eq_refl).
Defined.

(** ** Dependent imports without the root *)

Lemma match_positions_no_root p base ns :
  no_root ns -> match_positions Protein p base ns = [].
Proof.
  intros H. revert base. induction H as [|n ns Hn _ IH]; intros base; [reflexivity|].
  cbn [match_positions]. rewrite IH. unfold node_matches.
  destruct (nlabel n); try reflexivity. now contradiction Hn.
Qed.

Lemma reltype_eqb_neq r r' : r' <> r -> reltype_eqb r r' = false.
Proof. destruct r, r'; try reflexivity; intros H; now contradiction H. Qed.

Lemma count_edges_other r g la pa r' lb pb :
  r' <> r ->
  count_edges r (exec_stmt g (CreateRel la pa r' lb pb)) = count_edges r g.
Proof.
  intros Hr. unfold count_edges. cbn [exec_stmt edges].
  rewrite filter_app, length_app.
  set (pairs := list_prod _ _). clearbody pairs.
  induction pairs as [|ab pairs IH]; [simpl; lia|].
  cbn [map filter etype]. now rewrite (reltype_eqb_neq r r' Hr).
Qed.

(** Without a root in the store, statements that create no root and match
    their relationships of type [r] from the root add no edge of type
    [r]. *)
Lemma exec_without_root r log :
  forall g,
    no_root (nodes g) ->
    Forall (dependent_on_root r) log ->
    count_edges r (exec_from g log) = count_edges r g.
Proof.
  induction log as [|q log IH]; intros g Hg Hlog; [reflexivity|].
  inversion Hlog as [|? ? Hq Hrest]; subst.
  unfold exec_from in *. cbn [fold_left]. rewrite IH; auto.
  - destruct q as [l p|la pa r' lb pb]; [reflexivity|].
    destruct Hq as [->|Hr]; [|now apply count_edges_other].
    unfold count_edges. cbn [exec_stmt edges].
    now rewrite (match_positions_no_root _ _ _ Hg), app_nil_r.
  - destruct q as [l p|la pa r' lb pb]; [|exact Hg].
    cbn [exec_stmt nodes]. apply Forall_app. split; [exact Hg|].
    constructor; [exact Hq | constructor].
Qed.

Lemma all_dependent_nil r : all_dependent r [].
Proof. constructor. Qed.

Lemma all_dependent_app r a b :
  all_dependent r a -> all_dependent r b -> all_dependent r (a ++ b).
Proof.
  unfold all_dependent. intros Ha Hb. rewrite stmts_app. apply Forall_app. now split.
Qed.

Lemma all_dependent_frame r i (body : M unit) :
  all_dependent r (fst body) ->
  all_dependent r (fst (invoke i ;; open_database ;; with_session body ;; close_database)).
Proof. unfold all_dependent. now rewrite stmts_frame. Qed.

Lemma all_dependent_pair r l p pa r' :
  l <> Protein ->
  all_dependent r
    (fst (session_run (CreateNode l p) ;; session_run (CreateRel Protein pa r' l p))).
Proof.
  intros Hl. unfold all_dependent. cbn.
  constructor; [exact Hl|]. constructor; [now left | constructor].
Qed.

Lemma all_dependent_author_pair r p pa :
  HAS_AUTHOR <> r ->
  all_dependent r
    (fst (session_run (CreateNode Author p) ;;
          session_run (CreateRel Reference pa HAS_AUTHOR Author p))).
Proof.
  intros Hr. unfold all_dependent. cbn.
  constructor; [discriminate|]. constructor; [now right | constructor].
Qed.

Lemma all_dependent_run_create r l p :
  l <> Protein -> all_dependent r (fst (session_run (CreateNode l p))).
Proof. intros Hl. unfold all_dependent. cbn. now constructor. Qed.

Lemma all_dependent_run_rel r pa r' lb pb :
  all_dependent r (fst (session_run (CreateRel Protein pa r' lb pb))).
Proof. unfold all_dependent. cbn. constructor; [now left | constructor]. Qed.

Ltac dependent_walk r :=
  repeat first
    [ apply (closed_for_each (all_dependent r) (all_dependent_nil r) (all_dependent_app r)); intros ?
    | apply (closed_when (all_dependent r) (all_dependent_nil r))
    | (apply (all_dependent_pair r); discriminate)
    | apply (all_dependent_nil r)
    | apply (closed_bind (all_dependent r) (all_dependent_nil r) (all_dependent_app r));
      [apply (all_dependent_nil r) | intros ?] ].

Lemma insert_gene_dependent r data : all_dependent r (fst (insert_gene data)).
Proof. apply (all_dependent_frame r). unfold InsertGene.body. dependent_walk r. Qed.

Lemma insert_feature_dependent r data : all_dependent r (fst (insert_feature data)).
Proof. apply (all_dependent_frame r). unfold InsertFeature.body. dependent_walk r. Qed.

Lemma insert_fullname_dependent r data : all_dependent r (fst (insert_fullname data)).
Proof. apply (all_dependent_frame r). dependent_walk r. Qed.

Lemma insert_organism_dependent r data : all_dependent r (fst (insert_organism data)).
Proof. apply (all_dependent_frame r). unfold InsertOrganism.body. dependent_walk r. Qed.

Lemma insert_author_dependent r authorList id type author :
  HAS_AUTHOR <> r ->
  all_dependent r (fst (insert_author authorList id type author)).
Proof.
  intros Hr. apply (all_dependent_frame r).
  apply (closed_bind (all_dependent r) (all_dependent_nil r) (all_dependent_app r));
    [apply (all_dependent_nil r) | intros has].
  apply (closed_when (all_dependent r) (all_dependent_nil r)).
  apply (closed_bind (all_dependent r) (all_dependent_nil r) (all_dependent_app r));
    [apply (all_dependent_nil r) | intros persons].
  apply (closed_for_each (all_dependent r) (all_dependent_nil r) (all_dependent_app r)).
  intros person. unfold InsertAuthor.body.
  apply (closed_bind (all_dependent r) (all_dependent_nil r) (all_dependent_app r));
    [apply (all_dependent_nil r) | intros name].
  now apply (all_dependent_author_pair r).
Qed.

Lemma insert_reference_dependent r data :
  HAS_AUTHOR <> r ->
  all_dependent r (fst (insert_reference data)).
Proof.
  intros Hr. apply (all_dependent_frame r).
  apply (closed_bind (all_dependent r) (all_dependent_nil r) (all_dependent_app r));
    [apply (all_dependent_nil r) | intros references].
  apply (closed_for_each (all_dependent r) (all_dependent_nil r) (all_dependent_app r)).
  intros reference. unfold InsertReference.body, InsertReference.cascade.
  do 3 (apply (closed_bind (all_dependent r) (all_dependent_nil r) (all_dependent_app r));
        [apply (all_dependent_nil r) | intros ?]).
  apply (closed_bind (all_dependent r) (all_dependent_nil r) (all_dependent_app r));
    [apply (all_dependent_run_create r); discriminate | intros _].
  apply (closed_bind (all_dependent r) (all_dependent_nil r) (all_dependent_app r));
    [apply (all_dependent_run_rel r) | intros _].
  do 2 (apply (closed_bind (all_dependent r) (all_dependent_nil r) (all_dependent_app r));
        [apply (all_dependent_nil r) | intros ?]).
  apply (closed_when (all_dependent r) (all_dependent_nil r)).
  apply (closed_bind (all_dependent r) (all_dependent_nil r) (all_dependent_app r));
    [apply (all_dependent_nil r) | intros authorList].
  now apply (insert_author_dependent r).
Qed.

(** X6.  A dependent import run on a store that holds no Protein node
    creates its nodes but not one edge to them: the Gene, Feature, FullName
    and Organism imports run alone on an empty store leave it without any
    edge, and the Reference import leaves it without any HAS_REFERENCE
    edge, on every document.  The relationship statements are still issued;
    they match no root, so the order of [run] is what ties the nodes to the
    root. *)
Theorem dependent_import_without_root_adds_no_edge (data : value) (r : reltype) :
  count_edges r (exec_log (stmts (fst (insert_gene data)))) = 0 /\
  count_edges r (exec_log (stmts (fst (insert_feature data)))) = 0 /\
  count_edges r (exec_log (stmts (fst (insert_fullname data)))) = 0 /\
  count_edges r (exec_log (stmts (fst (insert_organism data)))) = 0 /\
  count_edges HAS_REFERENCE (exec_log (stmts (fst (insert_reference data)))) = 0.
Proof.
  unfold exec_log.
  repeat split; rewrite exec_without_root; try reflexivity; try constructor.
  - apply insert_gene_dependent.
  - apply insert_feature_dependent.
  - apply insert_fullname_dependent.
  - apply insert_organism_dependent.
  - apply insert_reference_dependent. discriminate.
Qed.

(** ** Every node comes with its relationship statement *)

Lemma paired_app a b : paired a -> paired b -> paired (a ++ b).
Proof.
  intros Ha Hb. induction Ha as [|l p la pa r rest _ IH]; [exact Hb|].
  cbn [app]. now constructor.
Qed.

Lemma paired_trace_nil : paired_trace [].
Proof. constructor. Qed.

Lemma paired_trace_app a b :
  paired_trace a -> paired_trace b -> paired_trace (a ++ b).
Proof. unfold paired_trace. intros Ha Hb. rewrite stmts_app. now apply paired_app. Qed.

Lemma paired_trace_frame i (body : M unit) :
  paired_trace (fst body) ->
  paired_trace (fst (invoke i ;; open_database ;; with_session body ;; close_database)).
Proof. unfold paired_trace. now rewrite stmts_frame. Qed.

Lemma paired_trace_pair l p la pa r :
  paired_trace
    (fst (session_run (CreateNode l p) ;; session_run (CreateRel la pa r l p))).
Proof. unfold paired_trace. cbn. repeat constructor. Qed.

Lemma paired_trace_pair_then l p la pa r (k : M unit) :
  paired_trace (fst k) ->
  paired_trace
    (fst (session_run (CreateNode l p) ;; session_run (CreateRel la pa r l p) ;; k)).
Proof.
  unfold paired_trace, session_run. rewrite !bind_emit. cbn [fst].
  intros Hk. now constructor.
Qed.

Ltac paired_walk :=
  repeat first
    [ apply (closed_for_each paired_trace paired_trace_nil paired_trace_app); intros ?
    | apply (closed_when paired_trace paired_trace_nil)
    | apply paired_trace_pair
    | apply paired_trace_pair_then
    | apply paired_trace_frame
    | apply paired_trace_nil
    | apply (closed_bind paired_trace paired_trace_nil paired_trace_app);
      [apply paired_trace_nil | intros ?] ].

Lemma insert_gene_paired data : paired_trace (fst (insert_gene data)).
Proof. apply paired_trace_frame. unfold InsertGene.body. paired_walk. Qed.

Lemma insert_feature_paired data : paired_trace (fst (insert_feature data)).
Proof. apply paired_trace_frame. unfold InsertFeature.body. paired_walk. Qed.

Lemma insert_author_paired authorList id type author :
  paired_trace (fst (insert_author authorList id type author)).
Proof. apply paired_trace_frame. unfold InsertAuthor.body. paired_walk. Qed.

Lemma insert_reference_paired data : paired_trace (fst (insert_reference data)).
Proof.
  apply paired_trace_frame.
  apply (closed_bind paired_trace paired_trace_nil paired_trace_app);
    [apply paired_trace_nil | intros references].
  apply (closed_for_each paired_trace paired_trace_nil paired_trace_app).
  intros reference. unfold InsertReference.body, InsertReference.cascade.
  do 3 (apply (closed_bind paired_trace paired_trace_nil paired_trace_app);
        [apply paired_trace_nil | intros ?]).
  apply paired_trace_pair_then.
  do 2 (apply (closed_bind paired_trace paired_trace_nil paired_trace_app);
        [apply paired_trace_nil | intros ?]).
  apply (closed_when paired_trace paired_trace_nil).
  apply (closed_bind paired_trace paired_trace_nil paired_trace_app);
    [apply paired_trace_nil | intros authorList].
  apply insert_author_paired.
Qed.

Lemma insert_fullname_paired data : paired_trace (fst (insert_fullname data)).
Proof. apply paired_trace_frame. paired_walk. Qed.

Lemma insert_organism_paired data : paired_trace (fst (insert_organism data)).
Proof. apply paired_trace_frame. unfold InsertOrganism.body. paired_walk. Qed.

(** With every statement accepted by the store, what a run issues, to its
    end or to the document error that cuts it short, is the creation of the
    root followed by pairs. *)
Lemma run_issues_root_then_pairs (data : value) :
  exists rest, stmts (fst (run data)) = root_created :: rest /\ paired rest.
Proof.
  unfold run. rewrite fst_bind, stmts_app.
  change (snd insert_protein) with (@Ok unit tt). cbv iota.
  change (stmts (fst insert_protein)) with [root_created].
  eexists. split; [reflexivity|].
  fold (paired_trace
          (fst (insert_gene data ;; insert_feature data ;; insert_reference data ;;
                insert_fullname data ;; insert_organism data))).
  apply (closed_bind paired_trace paired_trace_nil paired_trace_app);
    [apply insert_gene_paired | intros _].
  apply (closed_bind paired_trace paired_trace_nil paired_trace_app);
    [apply insert_feature_paired | intros _].
  apply (closed_bind paired_trace paired_trace_nil paired_trace_app);
    [apply insert_reference_paired | intros _].
  apply (closed_bind paired_trace paired_trace_nil paired_trace_app);
    [apply insert_fullname_paired | intros _].
  apply insert_organism_paired.
Qed.

(** ** One driver per sub-importer *)

Lemma one_driver_each_nil : one_driver_each [].
Proof. split; reflexivity. Qed.

Lemma one_driver_each_app a b :
  one_driver_each a -> one_driver_each b -> one_driver_each (a ++ b).
Proof.
  intros [Ha1 Ha2] [Hb1 Hb2]. unfold one_driver_each.
  rewrite !occurrences_app, invocations_app, length_app. lia.
Qed.

Lemma one_driver_each_run q : one_driver_each (fst (session_run q)).
Proof. split; reflexivity. Qed.

Lemma one_driver_each_frame i (body : M unit) :
  one_driver_each (fst body) ->
  one_driver_each (fst (invoke i ;; open_database ;; with_session body ;; close_database)).
Proof.
  intros [H1 H2]. unfold one_driver_each.
  rewrite invocations_frame, frame_trace, !occurrences_app.
  unfold occurrences in *. cbn [filter event_eqb length app].
  destruct (snd body); cbn [filter event_eqb length]; split; lia.
Qed.

Ltac one_driver_walk :=
  repeat first
    [ apply (closed_for_each one_driver_each one_driver_each_nil one_driver_each_app); intros ?
    | apply (closed_when one_driver_each one_driver_each_nil)
    | apply one_driver_each_run
    | apply one_driver_each_nil
    | apply (closed_bind one_driver_each one_driver_each_nil one_driver_each_app);
      [|intros ?] ].

Lemma insert_author_one_driver authorList id type author :
  one_driver_each (fst (insert_author authorList id type author)).
Proof. apply one_driver_each_frame. unfold InsertAuthor.body. one_driver_walk. Qed.

Lemma insert_reference_one_driver data :
  one_driver_each (fst (insert_reference data)).
Proof.
  apply one_driver_each_frame.
  apply (closed_bind one_driver_each one_driver_each_nil one_driver_each_app);
    [apply one_driver_each_nil | intros references].
  apply (closed_for_each one_driver_each one_driver_each_nil one_driver_each_app).
  intros reference. unfold InsertReference.body, InsertReference.cascade.
  do 7 (apply (closed_bind one_driver_each one_driver_each_nil one_driver_each_app);
        [first [apply one_driver_each_run | apply one_driver_each_nil] | intros ?]).
  apply (closed_when one_driver_each one_driver_each_nil).
  apply (closed_bind one_driver_each one_driver_each_nil one_driver_each_app);
    [apply one_driver_each_nil | intros authorList].
  apply insert_author_one_driver.
Qed.

(** X8.  No driver and no session is shared: on every document, a run opens
    exactly as many drivers, and as many sessions, as it enters
    sub-importers, the Author import of each reference included. *)
Theorem run_opens_one_driver_per_importer (data : value) :
  occurrences DriverOpen (fst (run data)) = length (invocations (fst (run data))) /\
  occurrences SessionOpen (fst (run data)) = length (invocations (fst (run data))).
Proof.
  change (one_driver_each (fst (run data))). unfold run.
  apply (closed_bind one_driver_each one_driver_each_nil one_driver_each_app);
    [apply one_driver_each_frame; one_driver_walk | intros _].
  apply (closed_bind one_driver_each one_driver_each_nil one_driver_each_app);
    [apply one_driver_each_frame; unfold InsertGene.body; one_driver_walk | intros _].
  apply (closed_bind one_driver_each one_driver_each_nil one_driver_each_app);
    [apply one_driver_each_frame; unfold InsertFeature.body; one_driver_walk | intros _].
  apply (closed_bind one_driver_each one_driver_each_nil one_driver_each_app);
    [apply insert_reference_one_driver | intros _].
  apply (closed_bind one_driver_each one_driver_each_nil one_driver_each_app);
    [apply one_driver_each_frame; one_driver_walk | intros _].
  apply one_driver_each_frame. unfold InsertOrganism.body. one_driver_walk.
Qed.

(** ** A run stops at the first sub-importer that raises *)

Lemma run_as_steps data :
  run data = insert_protein ;; for_each (fun m => m) (steps data).
Proof.
  unfold run, steps. cbn [for_each]. do 5 f_equal.
  unfold bind, ret. destruct (insert_organism data) as [t [[]|e]]; cbn [fst snd];
    now rewrite ?app_nil_r.
Qed.

(** X9.  [run] calls the sub-importers one after the other and catches
    nothing: when the sub-importers before one all return and that one
    raises, the run raises the same exception, its trace is the trace of the
    Protein import, of those before and of the one that raised, and the
    sub-importers after it are never entered; what was written stays
    written. *)
Theorem run_stops_at_first_failure
        (data : value) (pre : list (M unit)) (bad : M unit) (post : list (M unit)) (e : exn) :
  steps data = pre ++ bad :: post ->
  Forall (fun m => snd m = Ok tt) pre ->
  snd bad = Raise e ->
  run data = (fst insert_protein ++ flat_map (fun m => fst m) pre ++ fst bad, Raise e).
Proof.
  intros Hsteps Hpre Hbad. rewrite run_as_steps, Hsteps.
  rewrite (for_each_stops _ (fun m => m) pre bad post e Hpre Hbad).
  reflexivity.
Qed.

(** X9 on a document that has gene names and nothing else: the Gene import
    returns, the Feature import raises, and the run ends there with the root
    and the gene written. *)
Lemma run_without_features :
  let data := gene_document (VList [elem "primary" "FOXA2"]) in
  snd (run data) = Raise (KeyError "feature") /\
  stmts (fst (run data)) = root_created :: gene_stmts (elem "primary" "FOXA2") /\
  invocations (fst (run data)) = [IProtein; IGene; IFeature].
Proof.
  intros data.
  assert (Hpre : Forall (fun m : M unit => snd m = Ok tt) [insert_gene data]).
  { constructor; [reflexivity | constructor]. }
  rewrite (run_stops_at_first_failure data
             [insert_gene data] (insert_feature data)
             [insert_reference data; insert_fullname data; insert_organism data]
             (KeyError "feature") eq_refl Hpre eq_refl).
  repeat split.
Defined.

(** ** The exceptions a sub-importer can raise *)

Lemma raises_within_ok P A (a : A) : raises_within P (Ok a).
Proof. intros e H. discriminate. Qed.

Lemma raises_within_bindR P A B (r : result A) (k : A -> result B) :
  raises_within P r -> (forall a, raises_within P (k a)) ->
  raises_within P (bindR r k).
Proof.
  intros Hr Hk e. destruct r as [a|e']; cbn [bindR].
  - apply Hk.
  - intros H. injection H as <-. now apply Hr.
Qed.

Lemma getitem_allowed b keys v k :
  In k keys -> raises_within (allowed_exn b keys) (getitem v k).
Proof.
  intros Hk e. destruct v as [|s|kvs|vs]; cbn [getitem];
    try (intros H; injection H as <-; exact I).
  destruct (lookup k kvs); [discriminate|].
  intros H. injection H as <-. exact Hk.
Qed.

Lemma dict_get_allowed keys v k d :
  raises_within (allowed_exn true keys) (dict_get v k d).
Proof.
  intros e. destruct v as [|s|kvs|vs]; cbn [dict_get];
    try (intros H; injection H as <-; reflexivity).
  destruct (lookup k kvs); discriminate.
Qed.

Lemma py_in_allowed b keys k v : raises_within (allowed_exn b keys) (py_in k v).
Proof.
  intros e. destruct v as [|s|kvs|vs]; cbn [py_in]; try discriminate.
  - intros H. injection H as <-. exact I.
  - destruct (lookup k kvs); discriminate.
Qed.

Lemma py_iter_allowed b keys v : raises_within (allowed_exn b keys) (py_iter v).
Proof.
  intros e. destruct v as [|s|kvs|vs]; cbn [py_iter]; try discriminate.
  intros H. injection H as <-. exact I.
Qed.

Ltac pure_walk :=
  repeat first
    [ apply raises_within_ok
    | apply py_in_allowed
    | apply py_iter_allowed
    | apply dict_get_allowed
    | (apply getitem_allowed; simpl; tauto)
    | match goal with
      | |- raises_within _ (if ?c then _ else _) => destruct c
      end
    | apply raises_within_bindR; [|intros ?] ].

Lemma raises_only_bind P A B (m : M A) (k : A -> M B) :
  raises_only P m -> (forall a, raises_only P (k a)) -> raises_only P (bind m k).
Proof.
  unfold raises_only. intros Hm Hk e. rewrite snd_bind.
  destruct (snd m) as [a|e']; [apply Hk|].
  intros H. injection H as <-. now apply Hm.
Qed.

Lemma raises_only_lift P A (r : result A) :
  raises_within P r -> raises_only P (lift r).
Proof. auto. Qed.

Lemma raises_only_run P q : raises_only P (session_run q).
Proof. intros e H. discriminate. Qed.

Lemma raises_only_when P b (m : M unit) :
  raises_only P m -> raises_only P (when b m).
Proof. destruct b; [auto | intros _ e H; discriminate]. Qed.

Lemma raises_only_for_each P A (body : A -> M unit) xs :
  (forall x, raises_only P (body x)) -> raises_only P (for_each body xs).
Proof.
  intros Hb. induction xs as [|x xs IH]; cbn [for_each].
  - intros e H. discriminate.
  - apply raises_only_bind; auto.
Qed.

Lemma raises_only_frame P i (body : M unit) :
  raises_only P body ->
  raises_only P (invoke i ;; open_database ;; with_session body ;; close_database).
Proof. unfold raises_only. now rewrite result_frame. Qed.

Ltac raise_walk :=
  repeat match goal with
    | |- raises_only _ (for_each _ _) => apply raises_only_for_each; intros ?
    | |- raises_only _ (when _ _) => apply raises_only_when
    | |- raises_only _ (session_run _) => apply raises_only_run
    | |- raises_only _ (lift _) =>
        apply raises_only_lift; unfold nav; cbn [fold_left]; pure_walk
    | |- raises_only _ (bind _ _) => apply raises_only_bind; [|intros ?]
    end.

Lemma insert_gene_raises data :
  raises_only (allowed_exn false gene_keys) (insert_gene data).
Proof.
  apply raises_only_frame.
  unfold InsertGene.body, InsertGene.selected, gene_keys. raise_walk.
Qed.

Lemma insert_feature_raises data :
  raises_only (allowed_exn true feature_keys) (insert_feature data).
Proof.
  apply raises_only_frame.
  unfold InsertFeature.body, InsertFeature.at_position, feature_keys. raise_walk.
Qed.

Lemma insert_fullname_raises data :
  raises_only (allowed_exn false InsertFullName.path) (insert_fullname data).
Proof.
  apply raises_only_frame. unfold InsertFullName.path. raise_walk.
Qed.

Lemma insert_organism_raises data :
  raises_only (allowed_exn false organism_keys) (insert_organism data).
Proof.
  apply raises_only_frame. unfold InsertOrganism.body, organism_keys. raise_walk.
Qed.

(** Reading the key of a reference raises at most a type error: the key is
    read only when it is there. *)
Lemma key_of_raises keys reference :
  raises_within (allowed_exn true keys) (InsertReference.key_of reference).
Proof.
  intros e. unfold InsertReference.key_of.
  destruct reference as [|s|kvs|vs]; cbn [py_in bindR getitem].
  - intros H. injection H as <-. exact I.
  - destruct (contains s "@key"); [|discriminate].
    intros H. injection H as <-. exact I.
  - destruct (lookup "@key" kvs); discriminate.
  - destruct (existsb _ vs); [|discriminate].
    intros H. injection H as <-. exact I.
Qed.

(** Reading an attribute of the citation raises at most an attribute
    error. *)
Lemma citation_attr_raises keys reference attr :
  raises_within (allowed_exn true keys) (InsertReference.citation_attr reference attr).
Proof.
  intros e. unfold InsertReference.citation_attr.
  destruct reference as [|s|kvs|vs]; cbn [dict_get bindR];
    try (intros H; injection H as <-; reflexivity).
  unfold getitem.
  destruct (lookup "citation" kvs) as [c|]; cbn [bindR]; [|discriminate].
  destruct c as [|s|ckvs|vs]; cbn [dict_get bindR];
    try (intros H; injection H as <-; reflexivity).
  destruct (lookup attr ckvs) as [a|]; cbn [bindR is_none]; [|discriminate].
  destruct (is_none a); discriminate.
Qed.

Lemma author_body_raises id type author person :
  raises_only (allowed_exn true reference_keys) (InsertAuthor.body id type author person).
Proof. unfold InsertAuthor.body, reference_keys. raise_walk. Qed.

(** The persons are read only when the author list has them. *)
Lemma insert_author_raises authorList id type author :
  raises_only (allowed_exn true reference_keys)
    (insert_author authorList id type author).
Proof.
  apply raises_only_frame.
  destruct authorList as [|s|al|vs]; cbn [py_in].
  - intros e H. injection H as <-. exact I.
  - rewrite bind_lift_ok. destruct (contains s "person"); cbn [when].
    + intros e H. injection H as <-. exact I.
    + intros e H. discriminate.
  - unfold getitem. destruct (lookup "person" al) as [v|]; rewrite bind_lift_ok;
      cbn [when bindR]; [|intros e H; discriminate].
    apply raises_only_bind; [apply raises_only_lift, py_iter_allowed | intros persons].
    apply raises_only_for_each. intros person. apply author_body_raises.
  - rewrite bind_lift_ok. destruct (existsb _ vs); cbn [when].
    + intros e H. injection H as <-. exact I.
    + intros e H. discriminate.
Qed.

(** The author list is read only when the citation has it. *)
Lemma cascade_raises reference id type name :
  raises_only (allowed_exn true reference_keys)
    (InsertReference.cascade reference id type name).
Proof.
  unfold InsertReference.cascade.
  destruct (getitem reference "citation") as [c|e0] eqn:Hc.
  - rewrite bind_lift_ok.
    destruct c as [|s|ckvs|vs]; cbn [py_in].
    + intros e H. injection H as <-. exact I.
    + rewrite bind_lift_ok. destruct (contains s "authorList"); cbn [when bindR getitem].
      * intros e H. injection H as <-. exact I.
      * intros e H. discriminate.
    + unfold getitem at 1. cbn [bindR].
      destruct (lookup "authorList" ckvs) as [al|] eqn:Hal; rewrite bind_lift_ok;
        cbn [when]; [|intros e H; discriminate].
      rewrite bind_lift_ok. apply insert_author_raises.
    + rewrite bind_lift_ok. destruct (existsb _ vs); cbn [when bindR getitem].
      * intros e H. injection H as <-. exact I.
      * intros e H. discriminate.
  - intros e H. injection H as <-.
    apply (getitem_allowed true reference_keys reference "citation");
      [simpl; tauto | exact Hc].
Qed.

Lemma insert_reference_raises data :
  raises_only (allowed_exn true reference_keys) (insert_reference data).
Proof.
  apply raises_only_frame.
  apply raises_only_bind;
    [apply raises_only_lift; unfold nav, reference_keys; cbn [fold_left]; pure_walk
    | intros references].
  apply raises_only_for_each. intros reference. unfold InsertReference.body.
  apply raises_only_bind; [apply raises_only_lift, key_of_raises | intros id].
  apply raises_only_bind; [apply raises_only_lift, citation_attr_raises | intros type].
  apply raises_only_bind; [apply raises_only_lift, citation_attr_raises | intros name].
  apply raises_only_bind; [apply raises_only_run | intros _].
  apply raises_only_bind; [apply raises_only_run | intros _].
  apply cascade_raises.
Qed.

(** ** Running twice multiplies the edges *)

(** With [p] roots in the store and [c] Gene nodes already carrying each of
    the names to come, every name adds [p * (c + 1)] FROM_GENE edges. *)
Lemma gene_loop_counts_from (names : list value) (p c : nat) :
  forall g,
    matching Protein root_props (nodes g) = p ->
    (forall v, In v names -> matching Gene [("name", v)] (nodes g) = c) ->
    forallb is_str names = true ->
    NoDup names ->
    count_edges FROM_GENE (exec_from g (flat_map named_gene_stmts names)) =
    count_edges FROM_GENE g + p * (c + 1) * length names.
Proof.
  induction names as [|v names IH]; intros g Hroot Hseen Hstr Hnd.
  - simpl. lia.
  - cbn [forallb] in Hstr. apply andb_true_iff in Hstr. destruct Hstr as [Hv Hstr].
    apply NoDup_cons_iff in Hnd. destruct Hnd as [Hnotin Hnd'].
    cbn [flat_map named_gene_stmts app]. unfold exec_from in *. cbn [fold_left].
    rewrite IH; auto.
    + unfold InsertGene.query_relationship, InsertGene.query.
      rewrite count_edges_rel, count_edges_create. cbn [exec_stmt nodes].
      fold root_props. rewrite !matching_app, Hroot, matching_gene_node_as_root.
      rewrite (Hseen v (or_introl eq_refl)), matching_gene_node, (prop_eqb_refl _ Hv).
      cbn [length]. lia.
    + cbn [exec_stmt nodes InsertGene.query_relationship InsertGene.query].
      fold root_props. rewrite matching_app, Hroot, matching_gene_node_as_root. lia.
    + intros w Hw.
      cbn [exec_stmt nodes InsertGene.query_relationship InsertGene.query].
      rewrite matching_app, (Hseen w (or_intror Hw)), matching_gene_node.
      destruct (prop_eqb w v) eqn:E; [|lia].
      apply prop_eqb_eq in E. subst. contradiction.
Qed.

Lemma matching_root_among_genes names :
  matching Protein root_props (map gene_node names) = 0.
Proof. induction names as [|v names IH]; [reflexivity | exact IH]. Qed.

Lemma matching_gene_cons v w ns :
  matching Gene [("name", v)] (gene_node w :: ns) =
  (if prop_eqb v w then 1 else 0) + matching Gene [("name", v)] ns.
Proof.
  change (gene_node w :: ns) with ([gene_node w] ++ ns).
  rewrite matching_app. f_equal. apply matching_gene_node.
Qed.

Lemma matching_gene_absent names v :
  ~ In v names -> matching Gene [("name", v)] (map gene_node names) = 0.
Proof.
  induction names as [|w names IH]; intros Hv; [reflexivity|].
  cbn [map]. rewrite matching_gene_cons, IH.
  - destruct (prop_eqb v w) eqn:E; [|reflexivity].
    apply prop_eqb_eq in E. subst. contradiction Hv. now left.
  - intros H. apply Hv. now right.
Qed.

Lemma matching_gene_once names v :
  NoDup names -> forallb is_str names = true -> In v names ->
  matching Gene [("name", v)] (map gene_node names) = 1.
Proof.
  induction 1 as [|w names Hw Hnd IH]; intros Hstr Hv; [contradiction|].
  cbn [forallb] in Hstr. apply andb_true_iff in Hstr. destruct Hstr as [Hws Hstr].
  cbn [map]. rewrite matching_gene_cons. destruct Hv as [->|Hv].
  - now rewrite (prop_eqb_refl _ Hws), (matching_gene_absent _ _ Hw).
  - rewrite (IH Hstr Hv). destruct (prop_eqb v w) eqn:E; [|reflexivity].
    apply prop_eqb_eq in E. subst. contradiction.
Qed.

Lemma created_named_gene_stmts names :
  created (flat_map named_gene_stmts names) = map gene_node names.
Proof.
  induction names as [|v names IH]; [reflexivity|]. simpl. now rewrite IH.
Qed.

Lemma selected_texts_are_strings genes :
  forallb is_str (map text_of (filter gene_predicate genes)) = true.
Proof.
  induction genes as [|x xs IH]; [reflexivity|].
  cbn [filter]. destruct (gene_predicate x) eqn:E; [|exact IH].
  cbn [map forallb]. now rewrite (gene_predicate_text _ E), IH.
Qed.

Lemma protein_then_gene_log data genes :
  nav data ["uniprot"; "entry"; "gene"; "name"] = Ok (VList genes) ->
  forallb gene_element genes = true ->
  stmts (fst (insert_protein ;; insert_gene data)) =
  root_created :: flat_map named_gene_stmts (map text_of (filter gene_predicate genes)).
Proof.
  intros Hnav Hshape. rewrite fst_bind, stmts_app.
  change (snd insert_protein) with (@Ok unit tt). cbv iota.
  unfold insert_gene. rewrite stmts_frame, Hnav. cbn [bindR py_iter].
  rewrite bind_lift_ok, (for_each_gene_elements _ Hshape). cbn [fst].
  now rewrite stmts_map_run, flat_map_gene_stmts.
Qed.

(** X12.  Running the Protein and Gene imports a second time on the same
    document against the store the first run left does not double the
    FROM_GENE edges but multiplies them by five: the second run adds a
    second root and a second Gene node for every selected name, and each of
    its relationship statements matches both roots and both Gene nodes of
    its name.  (Stated for gene names of the expected shape whose selected
    texts are pairwise distinct.) *)
Theorem rerun_multiplies_gene_edges (data : value) (genes : list value) :
  nav data ["uniprot"; "entry"; "gene"; "name"] = Ok (VList genes) ->
  forallb gene_element genes = true ->
  NoDup (map text_of (filter gene_predicate genes)) ->
  let log := stmts (fst (insert_protein ;; insert_gene data)) in
  let once := exec_log log in
  let twice := exec_from once log in
  let k := length (filter gene_predicate genes) in
  count_edges FROM_GENE once = k /\
  count_edges FROM_GENE twice = 5 * k /\
  count_nodes Gene twice = 2 * k.
Proof.
  intros Hnav Hshape Hnd log once twice k.
  set (names := map text_of (filter gene_predicate genes)) in *.
  assert (Hk : length names = k) by (subst names k; apply length_map).
  assert (Hstr : forallb is_str names = true) by apply selected_texts_are_strings.
  assert (Hlog : log = root_created :: flat_map named_gene_stmts names)
    by (subst log names; now apply protein_then_gene_log).
  assert (Honce : once =
                  exec_from (exec_stmt empty_graph root_created)
                            (flat_map named_gene_stmts names))
    by (subst once; now rewrite Hlog).
  assert (Hnodes : nodes once =
                   {| nlabel := Protein; nprops := root_props |} :: map gene_node names).
  { rewrite Honce, nodes_exec_from. cbn [exec_stmt nodes empty_graph app root_created
                                            InsertProtein.query].
    now rewrite created_named_gene_stmts. }
  assert (E1 : count_edges FROM_GENE once = k).
  { rewrite Honce, (gene_loop_counts_from names 1 0);
      [cbn; lia | reflexivity | intros v _; reflexivity | exact Hstr | exact Hnd]. }
  split; [exact E1|]. split.
  - subst twice. rewrite Hlog. unfold exec_from at 1. cbn [fold_left].
    fold (exec_from (exec_stmt once root_created) (flat_map named_gene_stmts names)).
    rewrite (gene_loop_counts_from names 2 1); [| | |exact Hstr|exact Hnd].
    + change (count_edges FROM_GENE (exec_stmt once root_created))
        with (count_edges FROM_GENE once).
      rewrite E1. lia.
    + cbn [exec_stmt nodes root_created InsertProtein.query]. rewrite Hnodes.
      change ({| nlabel := Protein; nprops := root_props |} :: map gene_node names)
        with ([{| nlabel := Protein; nprops := root_props |}] ++ map gene_node names).
      now rewrite !matching_app, matching_root_among_genes.
    + intros v Hv.
      cbn [exec_stmt nodes root_created InsertProtein.query]. rewrite Hnodes.
      change ({| nlabel := Protein; nprops := root_props |} :: map gene_node names)
        with ([{| nlabel := Protein; nprops := root_props |}] ++ map gene_node names).
      now rewrite !matching_app, (matching_gene_once _ _ Hnd Hstr Hv).
  - subst twice. rewrite count_nodes_exec_from. unfold count_nodes at 1.
    rewrite Hnodes, Hlog.
    change (created (root_created :: flat_map named_gene_stmts names))
      with ({| nlabel := Protein; nprops := root_props |}
              :: created (flat_map named_gene_stmts names)).
    rewrite created_named_gene_stmts. cbn [filter nlabel label_eqb].
    assert (Hc : length (filter (fun n => label_eqb Gene (nlabel n)) (map gene_node names))
                 = length names).
    { clear. induction names as [|v vs IH]; [reflexivity|]. simpl. f_equal. exact IH. }
    cbn [label_eqb] in Hc. rewrite Hc. lia.
Qed.

(** X12 on the two selected gene names: two edges after one run, ten after
    two. *)
Lemma two_gene_names_run_twice :
  let data := gene_document (VList [elem "synonym" "HNF3B"; elem "primary" "FOXA2"]) in
  let log := stmts (fst (insert_protein ;; insert_gene data)) in
  count_edges FROM_GENE (exec_log log) = 2 /\
  count_edges FROM_GENE (exec_from (exec_log log) log) = 10.
Proof.
  intros data log.
  assert (Hnd : NoDup (map text_of (filter gene_predicate
                         [elem "synonym" "HNF3B"; elem "primary" "FOXA2"]))).
  { simpl. constructor; [|constructor; [|constructor]]; simpl; intuition discriminate. }
  destruct (rerun_multiplies_gene_edges data
              [elem "synonym" "HNF3B"; elem "primary" "FOXA2"] eq_refl eq_refl Hnd)
    as (H1 & H2 & _).
  split; [exact H1 | exact H2].
Defined.

(** * Sequences, single objects and counts *)

(** ** A single person *)

(** C4 as stated fails for one person: the parser delivers the only person
    of an author list as a mapping, not as a one-element sequence; the
    Author import then ranges over the keys of that mapping and raises a
    type error on the first, so the reference with one person entry gets its
    own two statements and no Author creation, no HAS_AUTHOR statement. *)
Lemma single_person_not_imported :
  let reference :=
    VDict [("@key", VStr "1");
           ("citation", VDict [("@type", VStr "journal article");
                               ("@name", VStr "Genomics");
                               ("authorList",
                                VDict [("person", VDict [("@name", VStr "Pani L.")])])])] in
  let r := InsertReference.body reference in
  snd r = Raise TypeError /\
  stmts (fst r) =
    [CreateNode Reference [("id", VStr "1"); ("type", VStr "journal article");
                           ("name", VStr "Genomics")];
     CreateRel Protein [("id_protein", VStr "Q9Y261")] HAS_REFERENCE
               Reference [("id", VStr "1"); ("type", VStr "journal article");
                          ("name", VStr "Genomics")]] /\
  length (filter is_author_creation (stmts (fst r))) = 0 /\
  length (filter is_has_author (stmts (fst r))) = 0 /\
  snd (insert_reference (reference_document (VList [reference]))) = Raise TypeError.
Proof. repeat split. Qed.

(** ** Every reference of a sequence gets its node *)

Lemma for_each_after_ok A (body : A -> M unit) (pre rest : list A) :
  Forall (fun x => snd (body x) = Ok tt) pre ->
  for_each body (pre ++ rest) =
  (flat_map (fun x => fst (body x)) pre ++ fst (for_each body rest),
   snd (for_each body rest)).
Proof.
  induction 1 as [|x xs Hx _ IH]; cbn [app flat_map for_each].
  - now destruct (for_each body rest).
  - unfold bind. rewrite Hx, IH. cbn [fst snd]. now rewrite app_assoc.
Qed.

Lemma bind_after_two (e1 e2 : event) (m : M unit) (k : unit -> M unit) :
  bind (e1 :: e2 :: fst m, snd m) k =
  (e1 :: e2 :: fst (bind m k), snd (bind m k)).
Proof. unfold bind. cbn [fst snd]. destruct (snd m); reflexivity. Qed.

Lemma references_before_ok pre :
  forallb reference_element pre = true ->
  Forall (fun r => snd (InsertReference.body r) = Ok tt) pre /\
  stmts (flat_map (fun r => fst (InsertReference.body r)) pre) =
  flat_map reference_stmts pre.
Proof.
  induction pre as [|r pre IH]; intros H; [split; [constructor | reflexivity]|].
  cbn [forallb] in H. apply andb_true_iff in H. destruct H as [Hr Hpre].
  destruct (IH Hpre) as [IH1 IH2].
  destruct (reference_body_on_element r Hr) as [R1 R2].
  split; [constructor; assumption|].
  cbn [flat_map]. now rewrite stmts_app, R2, IH2.
Qed.

(** C9, as the code has it.  Take a sequence of references, one of them a
    mapping whose citation is a mapping, the references before it of the
    expected shape (so that the loop reaches it).  The Reference import then
    creates that reference's node, with exactly the properties id, type and
    name read from '@key' and from the citation's '@type' and '@name', each
    the empty string when absent, and issues the HAS_REFERENCE statement
    from the root with the same three properties; no condition filters the
    reference.  Nothing is raised for such an absence: what the import does
    next, and what it returns, is the Author cascade of that reference and
    then the rest of the loop; with no author list and no reference after it
    the import returns. *)
Theorem reference_created_with_defaults
        (data : value) (pre : list value) (kvs c : list (string * value))
        (post : list value) :
  nav data ["uniprot"; "entry"; "reference"] = Ok (VList (pre ++ VDict kvs :: post)) ->
  forallb reference_element pre = true ->
  lookup "citation" kvs = Some (VDict c) ->
  let id := match lookup "@key" kvs with Some v => v | None => VStr "" end in
  let type := citation_field c "@type" in
  let name := citation_field c "@name" in
  let node_props := [("id", id); ("type", type); ("name", name)] in
  let rest := cascade_of c id type name ;; for_each InsertReference.body post in
  stmts (fst (insert_reference data)) =
    flat_map reference_stmts pre
    ++ CreateNode Reference node_props
    :: CreateRel Protein [("id_protein", VStr "Q9Y261")] HAS_REFERENCE
                 Reference node_props
    :: stmts (fst rest) /\
  snd (insert_reference data) = snd rest /\
  In {| nlabel := Reference; nprops := node_props |}
     (nodes (exec_log (stmts (fst (insert_reference data))))) /\
  (lookup "@key" kvs = None -> id = VStr "") /\
  (lookup "@type" c = None -> type = VStr "") /\
  (lookup "@name" c = None -> name = VStr "") /\
  (lookup "authorList" c = None -> post = [] ->
   snd (insert_reference data) = Ok tt).
Proof.
  intros Hnav Hpre Hc id type name node_props rest.
  destruct (references_before_ok pre Hpre) as [Hok Hlog].
  assert (Hbody :
            (references <- lift (let? v := nav data ["uniprot"; "entry"; "reference"] in py_iter v) ;;
             for_each InsertReference.body references) =
            (flat_map (fun r => fst (InsertReference.body r)) pre
               ++ Run (CreateNode Reference node_props)
               :: Run (CreateRel Protein [("id_protein", VStr "Q9Y261")] HAS_REFERENCE
                                 Reference node_props)
               :: fst rest,
             snd rest)).
  { rewrite Hnav. cbn [bindR py_iter]. rewrite bind_lift_ok.
    rewrite (for_each_after_ok _ InsertReference.body pre _ Hok).
    cbn [for_each]. rewrite (reference_body_on_mapping _ _ Hc).
    cbv zeta. rewrite bind_after_two. reflexivity. }
  assert (Hstmts :
            stmts (fst (insert_reference data)) =
            flat_map reference_stmts pre
              ++ CreateNode Reference node_props
              :: CreateRel Protein [("id_protein", VStr "Q9Y261")] HAS_REFERENCE
                           Reference node_props
              :: stmts (fst rest)).
  { unfold insert_reference. rewrite stmts_frame, Hbody. cbn [fst].
    now rewrite stmts_app, Hlog. }
  assert (Hres : snd (insert_reference data) = snd rest).
  { unfold insert_reference. now rewrite result_frame, Hbody. }
  split; [exact Hstmts|]. split; [exact Hres|]. split.
  { rewrite Hstmts. unfold exec_log. rewrite nodes_exec_from. cbn [empty_graph nodes app].
    unfold created. rewrite flat_map_app. apply in_or_app. right. now left. }
  split; [subst id; now intros ->|].
  split; [subst type; unfold citation_field; now intros ->|].
  split; [subst name; unfold citation_field; now intros ->|].
  intros Hal ->. rewrite Hres. subst rest. unfold cascade_of. now rewrite Hal.
Qed.

(** C9 on the sample document: its second reference, which has a key and a
    citation type but no citation name, gets its node with the empty name. *)
Lemma second_sample_reference_created :
  In {| nlabel := Reference;
        nprops := [("id", VStr "2"); ("type", VStr "submission"); ("name", VStr "")] |}
     (nodes (exec_log (stmts (fst (insert_reference sample_document))))) /\
  snd (insert_reference sample_document) = Ok tt.
Proof.
  destruct (reference_created_with_defaults sample_document
              [VDict [("@key", VStr "1");
                      ("citation", VDict [("@type", VStr "journal article");
                                          ("@name", VStr "Genomics");
                                          ("authorList",
                                           VDict [("person", VList [VDict [("@name", VStr "A")];
                                                                    VDict [("@name", VStr "B")]])])])]]
              [("@key", VStr "2"); ("citation", VDict [("@type", VStr "submission")])]
              [("@type", VStr "submission")] []
              eq_refl eq_refl eq_refl) as (_ & _ & Hnode & _ & _ & _ & Hret).
  split; [exact Hnode | exact (Hret eq_refl eq_refl)].
Defined.

(** C9 as stated fails: not every reference element gets a node.  The only
    reference of a document, which the parser delivers as a mapping and not
    as a one-element sequence, is not imported at all; and a reference whose
    citation is empty (the parser's [None]) raises before its node is
    created. *)
Lemma single_reference_not_imported :
  let reference :=
    VDict [("@key", VStr "1"); ("citation", VDict [("@type", VStr "submission")])] in
  insert_reference (reference_document reference) = aborted IReference TypeError /\
  stmts (fst (insert_reference (reference_document reference))) = [] /\
  snd (insert_reference (reference_document (VList [reference]))) = Ok tt /\
  length (filter is_reference_creation
            (stmts (fst (insert_reference (reference_document (VList [reference])))))) = 1 /\
  insert_reference
    (reference_document (VList [VDict [("@key", VStr "1"); ("citation", VNone)]]))
  = aborted IReference AttributeError.
Proof. repeat split. Qed.

(** ** The Organism import, its nodes and its edges *)

Lemma organism_loop_counts (xs : list value) :
  forall g j,
    matching Protein root_props (nodes g) = 1 ->
    matching Organism homo_sapiens_props (nodes g) = j ->
    2 * count_edges IN_ORGANISM (exec_from g (flat_map (fun _ => homo_sapiens_stmts) xs)) =
    2 * count_edges IN_ORGANISM g + length xs * (2 * j + length xs + 1).
Proof.
  induction xs as [|x xs IH]; intros g j Hroot Hj.
  - simpl. lia.
  - cbn [flat_map homo_sapiens_stmts app]. unfold exec_from in *. cbn [fold_left].
    rewrite (IH _ (S j)).
    + unfold InsertOrganism.query_relationship, InsertOrganism.query.
      rewrite count_edges_rel, count_edges_create. cbn [exec_stmt nodes].
      fold root_props homo_sapiens_props.
      rewrite !matching_app, Hroot, Hj.
      change (matching Protein root_props
                [{| nlabel := Organism; nprops := homo_sapiens_props |}]) with 0.
      change (matching Organism homo_sapiens_props
                [{| nlabel := Organism; nprops := homo_sapiens_props |}]) with 1.
      cbn [length]. nia.
    + cbn [exec_stmt nodes InsertOrganism.query_relationship InsertOrganism.query].
      fold root_props homo_sapiens_props. rewrite matching_app, Hroot. reflexivity.
    + cbn [exec_stmt nodes InsertOrganism.query_relationship InsertOrganism.query].
      fold homo_sapiens_props. rewrite matching_app, Hj.
      change (matching Organism homo_sapiens_props
                [{| nlabel := Organism; nprops := homo_sapiens_props |}]) with 1.
      lia.
Qed.

Lemma insert_organism_on_elements data organisms :
  nav data ["uniprot"; "entry"; "organism"; "name"] = Ok (VList organisms) ->
  forallb organism_element organisms = true ->
  snd (insert_organism data) = Ok tt /\
  stmts (fst (insert_organism data)) =
  flat_map (fun _ => homo_sapiens_stmts) (filter is_homo_sapiens organisms).
Proof.
  intros Hnav Hshape. unfold insert_organism.
  rewrite result_frame, stmts_frame, Hnav. cbn [bindR py_iter].
  rewrite bind_lift_ok, (for_each_organism_elements _ Hshape). cbn [fst snd].
  now rewrite stmts_map_run.
Qed.

(** C10, as the code has it.  On every document, each Organism creation
    the Organism import issues has taxonomy_id "9606"; no identifier is read
    from the document.  On a document whose organism names are a sequence of
    elements with a text, the import returns and issues, for exactly the
    elements whose text is 'Homo sapiens' and for no other, the creation of
    an Organism named 'Homo sapiens' with taxonomy_id "9606" and the
    IN_ORGANISM statement from the root to it.  Run after the Protein import
    on an empty store, that is one Organism node per such element; the
    IN_ORGANISM statement matches every Organism node of these properties,
    so [k] such elements give [k * (k + 1) / 2] edges: one edge for one
    element, none for none. *)
Theorem organism_import (data : value) :
  Forall taxonomy_is_constant (stmts (fst (insert_organism data))) /\
  (forall organisms,
      nav data ["uniprot"; "entry"; "organism"; "name"] = Ok (VList organisms) ->
      forallb organism_element organisms = true ->
      let k := length (filter is_homo_sapiens organisms) in
      let g := exec_log (stmts (fst (insert_protein ;; insert_organism data))) in
      snd (insert_organism data) = Ok tt /\
      stmts (fst (insert_organism data)) =
        flat_map (fun _ =>
                    [CreateNode Organism
                       [("name", VStr "Homo sapiens"); ("taxonomy_id", VStr "9606")];
                     CreateRel Protein [("id_protein", VStr "Q9Y261")] IN_ORGANISM
                       Organism
                       [("name", VStr "Homo sapiens"); ("taxonomy_id", VStr "9606")]])
                 (filter is_homo_sapiens organisms) /\
      count_nodes Organism g = k /\
      2 * count_edges IN_ORGANISM g = k * (k + 1) /\
      (k <= 1 -> count_edges IN_ORGANISM g = k)).
Proof.
  split; [exact (insert_organism_constant_taxonomy data)|].
  intros organisms Hnav Hshape k g.
  destruct (insert_organism_on_elements data organisms Hnav Hshape) as [Hres Hlog].
  assert (Hg : g = exec_from (exec_stmt empty_graph root_created)
                             (flat_map (fun _ => homo_sapiens_stmts)
                                       (filter is_homo_sapiens organisms))).
  { subst g. rewrite fst_bind, stmts_app.
    change (snd insert_protein) with (@Ok unit tt). cbv iota. now rewrite Hlog. }
  assert (Hedges : 2 * count_edges IN_ORGANISM g = k * (k + 1)).
  { rewrite Hg, (organism_loop_counts _ _ 0); [|reflexivity|reflexivity].
    subst k. cbn [count_edges exec_stmt edges empty_graph root_created
                    InsertProtein.query filter length]. lia. }
  split; [exact Hres|]. split; [exact Hlog|]. split; [|split; [exact Hedges|]].
  - rewrite Hg, count_nodes_exec_from.
    cbn [count_nodes exec_stmt nodes empty_graph root_created InsertProtein.query
           app filter nlabel label_eqb length Nat.add].
    subst k. clear.
    induction (filter is_homo_sapiens organisms) as [|o os IH]; [reflexivity|].
    simpl. f_equal. exact IH.
  - intros Hk. nia.
Qed.

(** C10 on the sample document: of its two organism names only the
    scientific one is 'Homo sapiens'; it gets its node and its one edge. *)
Lemma sample_organism_import :
  let g := exec_log (stmts (fst (insert_protein ;; insert_organism sample_document))) in
  snd (insert_organism sample_document) = Ok tt /\
  count_nodes Organism g = 1 /\
  count_edges IN_ORGANISM g = 1.
Proof.
  intros g.
  destruct (proj2 (organism_import sample_document)
              [elem "scientific" "Homo sapiens"; elem "common" "Human"]
              eq_refl eq_refl) as (H1 & _ & H3 & _ & H5).
  split; [exact H1|]. split; [exact H3|]. apply H5. simpl. lia.
Defined.

(** C10 as stated fails.  The only organism name of a document, which the
    parser delivers as a mapping and not as a one-element sequence, is not
    imported although its text is 'Homo sapiens': the import raises a type
    error and creates nothing.  And two names with that text get two nodes
    but three IN_ORGANISM edges. *)
Lemma single_organism_name_not_imported :
  let name := elem "scientific" "Homo sapiens" in
  is_homo_sapiens name = true /\
  insert_organism (organism_document name) = aborted IOrganism TypeError /\
  stmts (fst (insert_organism (organism_document name))) = [] /\
  (let g := exec_log (stmts (fst (insert_protein ;;
                                  insert_organism (organism_document (VList [name; name]))))) in
   count_nodes Organism g = 2 /\ count_edges IN_ORGANISM g = 3).
Proof. repeat split. Qed.

(** ** Two runs, twice the nodes *)

Lemma count_created l log :
  length (filter (fun n => label_eqb l (nlabel n)) (created log)) =
  length (filter (creates l) log).
Proof.
  induction log as [|q log IH]; [reflexivity|].
  destruct q as [l' p|la pa r lb pb]; cbn [created flat_map app filter creates nlabel].
  - fold (created log). destruct (label_eqb l l'); cbn [length]; now rewrite IH.
  - exact IH.
Qed.

Lemma count_nodes_creates l log g :
  count_nodes l (exec_from g log) = count_nodes l g + length (filter (creates l) log).
Proof. now rewrite count_nodes_exec_from, count_created. Qed.

(** After the root, a run creates no other root, whatever the document. *)
Lemma run_log_root data :
  exists rest,
    stmts (fst (run data)) = root_created :: rest /\
    Forall (dependent_on_root FROM_GENE) rest.
Proof.
  unfold run. rewrite fst_bind, stmts_app.
  change (snd insert_protein) with (@Ok unit tt). cbv iota.
  change (stmts (fst insert_protein)) with [root_created].
  eexists. split; [reflexivity|].
  fold (all_dependent FROM_GENE
          (fst (insert_gene data ;; insert_feature data ;; insert_reference data ;;
                insert_fullname data ;; insert_organism data))).
  apply (closed_bind (all_dependent FROM_GENE) (all_dependent_nil _) (all_dependent_app _));
    [apply insert_gene_dependent | intros _].
  apply (closed_bind (all_dependent FROM_GENE) (all_dependent_nil _) (all_dependent_app _));
    [apply insert_feature_dependent | intros _].
  apply (closed_bind (all_dependent FROM_GENE) (all_dependent_nil _) (all_dependent_app _));
    [apply insert_reference_dependent; discriminate | intros _].
  apply (closed_bind (all_dependent FROM_GENE) (all_dependent_nil _) (all_dependent_app _));
    [apply insert_fullname_dependent | intros _].
  apply insert_organism_dependent.
Qed.

Lemma no_root_created r rest :
  Forall (dependent_on_root r) rest -> length (filter (creates Protein) rest) = 0.
Proof.
  induction 1 as [|q rest Hq _ IH]; [reflexivity|].
  destruct q as [l p|la pa r' lb pb]; cbn [filter creates]; [|exact IH].
  destruct l; try exact IH. now contradiction Hq.
Qed.

Lemma insert_gene_on_elements data genes :
  nav data ["uniprot"; "entry"; "gene"; "name"] = Ok (VList genes) ->
  forallb gene_element genes = true ->
  snd (insert_gene data) = Ok tt /\
  stmts (fst (insert_gene data)) = flat_map gene_stmts (filter gene_predicate genes).
Proof.
  intros Hnav Hshape. unfold insert_gene.
  rewrite result_frame, stmts_frame, Hnav. cbn [bindR py_iter].
  rewrite bind_lift_ok, (for_each_gene_elements _ Hshape). cbn [fst snd].
  now rewrite stmts_map_run.
Qed.

Lemma insert_feature_on_elements data features :
  nav data ["uniprot"; "entry"; "feature"] = Ok (VList features) ->
  forallb feature_element features = true ->
  snd (insert_feature data) = Ok tt /\
  stmts (fst (insert_feature data)) =
  flat_map (fun _ => phosphoserine_stmts) (filter feature_predicate features).
Proof.
  intros Hnav Hshape. unfold insert_feature.
  rewrite result_frame, stmts_frame, Hnav. cbn [bindR py_iter].
  rewrite bind_lift_ok, (for_each_feature_elements _ Hshape). cbn [fst snd].
  now rewrite stmts_map_run.
Qed.

Lemma insert_reference_on_elements data references :
  nav data ["uniprot"; "entry"; "reference"] = Ok (VList references) ->
  forallb reference_element references = true ->
  snd (insert_reference data) = Ok tt /\
  stmts (fst (insert_reference data)) = flat_map reference_stmts references.
Proof.
  intros Hnav Hshape. destruct (references_before_ok _ Hshape) as [Hok Hlog].
  unfold insert_reference.
  rewrite result_frame, stmts_frame, Hnav. cbn [bindR py_iter].
  rewrite bind_lift_ok, (for_each_all_ok _ InsertReference.body _ Hok). cbn [fst snd].
  now rewrite Hlog.
Qed.

Lemma insert_fullname_on_path data full :
  nav data InsertFullName.path = Ok full ->
  snd (insert_fullname data) = Ok tt /\
  stmts (fst (insert_fullname data)) =
  if eq_str full recommended_name then fullname_stmts else [].
Proof.
  intros Hnav. unfold insert_fullname.
  rewrite result_frame, stmts_frame, Hnav, bind_lift_ok.
  fold recommended_name.
  destruct (eq_str full recommended_name) eqn:E; cbn [when]; [|now split].
  rewrite bind_lift_ok. apply eq_str_eq in E. subst full. now split.
Qed.

Lemma creates_gene_stmts l genes :
  length (filter (creates l) (flat_map gene_stmts genes)) =
  match l with Gene => length genes | _ => 0 end.
Proof.
  induction genes as [|g genes IH]; [now destruct l|].
  cbn [flat_map gene_stmts app filter creates InsertGene.query
         InsertGene.query_relationship].
  destruct l; cbn [label_eqb length]; rewrite IH; reflexivity.
Qed.

Lemma creates_feature_stmts l (features : list value) :
  length (filter (creates l) (flat_map (fun _ => phosphoserine_stmts) features)) =
  match l with Feature => length features | _ => 0 end.
Proof.
  induction features as [|f features IH]; [now destruct l|].
  cbn [flat_map phosphoserine_stmts app filter creates InsertFeature.query
         InsertFeature.query_relationship].
  destruct l; cbn [label_eqb length]; rewrite IH; reflexivity.
Qed.

Lemma creates_organism_stmts l (organisms : list value) :
  length (filter (creates l) (flat_map (fun _ => homo_sapiens_stmts) organisms)) =
  match l with Organism => length organisms | _ => 0 end.
Proof.
  induction organisms as [|o organisms IH]; [now destruct l|].
  cbn [flat_map homo_sapiens_stmts app filter creates InsertOrganism.query
         InsertOrganism.query_relationship].
  destruct l; cbn [label_eqb length]; rewrite IH; reflexivity.
Qed.

Lemma creates_author_stmts l id type name persons :
  length (filter (creates l) (flat_map (author_stmts id type name) persons)) =
  match l with Author => length persons | _ => 0 end.
Proof.
  induction persons as [|p persons IH]; [now destruct l|].
  cbn [flat_map author_stmts app filter creates InsertAuthor.query
         InsertAuthor.query_relationship].
  destruct l; cbn [label_eqb length]; rewrite IH; reflexivity.
Qed.

Lemma creates_reference_stmts l references :
  forallb reference_element references = true ->
  length (filter (creates l) (flat_map reference_stmts references)) =
  match l with
  | Reference => length references
  | Author => length (flat_map authors_of references)
  | _ => 0
  end.
Proof.
  induction references as [|r references IH]; intros H; [now destruct l|].
  cbn [forallb] in H. apply andb_true_iff in H. destruct H as [Hr Hrest].
  specialize (IH Hrest).
  destruct r as [|s|kvs|vs]; try discriminate.
  cbn [flat_map]. rewrite filter_app, length_app, IH.
  cbn [reference_stmts filter creates InsertReference.query
         InsertReference.query_relationship].
  pose proof (creates_author_stmts l (reference_key kvs)
                (citation_field (citation_of (VDict kvs)) "@type")
                (citation_field (citation_of (VDict kvs)) "@name")
                (authors_of (VDict kvs))) as Ha.
  destruct l; cbn [label_eqb length]; rewrite Ha; cbn [length];
    rewrite ?length_app; lia.
Qed.

Lemma creates_fullname_stmts l full :
  length (filter (creates l) (if eq_str full recommended_name then fullname_stmts else [])) =
  match l with FullName => if eq_str full recommended_name then 1 else 0 | _ => 0 end.
Proof. destruct (eq_str full recommended_name); now destruct l. Qed.

(** C5.  Every creation statement adds a node whatever the store holds, so
    for every document and every label the store after one run, started
    empty, holds one node per creation statement of that label the run
    issued (one Protein node in every case), and after a second run on the
    same document against that store exactly twice as many.  On a document
    of the expected shape the counts after one run are: one Protein, one
    Gene per selected gene name, one Feature per selected feature, one
    Reference per reference, one Author per person, one FullName when the
    full name is the expected one, one Organism per 'Homo sapiens' name; and
    twice each of these after two runs. *)
Theorem rerun_doubles_every_node_count (data : value) :
  let log := stmts (fst (run data)) in
  let once := exec_log log in
  let twice := exec_from once log in
  (count_nodes Protein once = 1 /\ count_nodes Protein twice = 2) /\
  (forall l,
      count_nodes l once = length (filter (creates l) log) /\
      count_nodes l twice = 2 * count_nodes l once) /\
  (forall genes features references full organisms,
      nav data ["uniprot"; "entry"; "gene"; "name"] = Ok (VList genes) ->
      forallb gene_element genes = true ->
      nav data ["uniprot"; "entry"; "feature"] = Ok (VList features) ->
      forallb feature_element features = true ->
      nav data ["uniprot"; "entry"; "reference"] = Ok (VList references) ->
      forallb reference_element references = true ->
      nav data InsertFullName.path = Ok full ->
      nav data ["uniprot"; "entry"; "organism"; "name"] = Ok (VList organisms) ->
      forallb organism_element organisms = true ->
      snd (run data) = Ok tt /\
      forall l,
        count_nodes l once = document_nodes genes features references full organisms l /\
        count_nodes l twice =
        2 * document_nodes genes features references full organisms l).
Proof.
  intros log once twice.
  assert (Hcount : forall l,
             count_nodes l once = length (filter (creates l) log) /\
             count_nodes l twice = 2 * count_nodes l once).
  { intros l. subst once twice. unfold exec_log.
    rewrite !count_nodes_creates. cbn [count_nodes empty_graph nodes filter length].
    lia. }
  split; [|split; [exact Hcount|]].
  - destruct (Hcount Protein) as [H1 H2]. rewrite H2, H1.
    destruct (run_log_root data) as (rest & Hlog & Hrest).
    subst log. rewrite Hlog.
    cbn [filter creates root_created InsertProtein.query label_eqb length].
    rewrite (no_root_created _ _ Hrest). split; reflexivity.
  - intros genes features references full organisms Hg Hgs Hf Hfs Hr Hrs Hn Ho Hos.
    destruct (insert_gene_on_elements _ _ Hg Hgs) as [G1 G2].
    destruct (insert_feature_on_elements _ _ Hf Hfs) as [F1 F2].
    destruct (insert_reference_on_elements _ _ Hr Hrs) as [R1 R2].
    destruct (insert_fullname_on_path _ _ Hn) as [N1 N2].
    destruct (insert_organism_on_elements _ _ Ho Hos) as [O1 O2].
    assert (Hsteps : Forall (fun m => snd m = Ok tt) (steps data))
      by (repeat constructor; assumption).
    assert (Hrun : run data =
                   (fst insert_protein ++ flat_map (fun m => fst m) (steps data), Ok tt)).
    { rewrite run_as_steps, (for_each_all_ok _ (fun m => m) _ Hsteps). reflexivity. }
    split; [now rewrite Hrun|].
    assert (Hlog : log =
                   root_created
                   :: flat_map gene_stmts (filter gene_predicate genes)
                   ++ flat_map (fun _ => phosphoserine_stmts)
                               (filter feature_predicate features)
                   ++ flat_map reference_stmts references
                   ++ (if eq_str full recommended_name then fullname_stmts else [])
                   ++ flat_map (fun _ => homo_sapiens_stmts)
                               (filter is_homo_sapiens organisms)).
    { subst log. rewrite Hrun. cbn [fst]. rewrite stmts_app, stmts_flat_map.
      cbn [steps flat_map]. rewrite G2, F2, R2, N2, O2, app_nil_r. reflexivity. }
    intros l. destruct (Hcount l) as [H1 H2]. rewrite H2, H1, Hlog.
    cbn [filter]. 
    assert (Hparts :
              length (filter (creates l)
                        (flat_map gene_stmts (filter gene_predicate genes)
                         ++ flat_map (fun _ => phosphoserine_stmts)
                                     (filter feature_predicate features)
                         ++ flat_map reference_stmts references
                         ++ (if eq_str full recommended_name then fullname_stmts else [])
                         ++ flat_map (fun _ => homo_sapiens_stmts)
                                     (filter is_homo_sapiens organisms))) =
              match l with
              | Protein => 0
              | _ => document_nodes genes features references full organisms l
              end).
    { rewrite !filter_app, !length_app, creates_gene_stmts, creates_feature_stmts,
        (creates_reference_stmts _ _ Hrs), creates_fullname_stmts, creates_organism_stmts.
      destruct l; cbn [document_nodes]; lia. }
    destruct l; cbn [creates root_created InsertProtein.query label_eqb length];
      rewrite Hparts; cbn [document_nodes]; lia.
Qed.

(** C5 on the sample document: one run gives it one Protein, two Genes, one
    Feature, two References, two Authors, one FullName and one Organism; two
    runs give twice that. *)
Lemma sample_document_run_twice :
  let log := stmts (fst (run sample_document)) in
  snd (run sample_document) = Ok tt /\
  map (fun l => count_nodes l (exec_log log))
      [Protein; Gene; Feature; Reference; Author; FullName; Organism]
  = [1; 2; 1; 2; 2; 1; 1] /\
  map (fun l => count_nodes l (exec_from (exec_log log) log))
      [Protein; Gene; Feature; Reference; Author; FullName; Organism]
  = [2; 4; 2; 4; 4; 2; 2].
Proof.
  intros log.
  destruct (proj2 (proj2 (rerun_doubles_every_node_count sample_document))
              [elem "primary" "FOXA2"; elem "synonym" "HNF3B"; elem "synonym" "TCF3B"]
              (match nav sample_document ["uniprot"; "entry"; "feature"] with
               | Ok (VList fs) => fs | _ => [] end)
              (references_of sample_document)
              (VStr "Hepatocyte nuclear factor 3-beta")
              [elem "scientific" "Homo sapiens"; elem "common" "Human"]
              eq_refl eq_refl eq_refl eq_refl eq_refl eq_refl eq_refl eq_refl eq_refl)
    as [Hret Hc].
  split; [exact Hret|].
  subst log. cbn [map]. split.
  - now rewrite (proj1 (Hc Protein)), (proj1 (Hc Gene)), (proj1 (Hc Feature)),
      (proj1 (Hc Reference)), (proj1 (Hc Author)), (proj1 (Hc FullName)),
      (proj1 (Hc Organism)).
  - now rewrite (proj2 (Hc Protein)), (proj2 (Hc Gene)), (proj2 (Hc Feature)),
      (proj2 (Hc Reference)), (proj2 (Hc Author)), (proj2 (Hc FullName)),
      (proj2 (Hc Organism)).
Defined.

(** ** The statements issued up to any point of a run *)

Lemma paired_prefix log :
  paired log ->
  forall pre post,
    log = pre ++ post ->
    exists pairs tail,
      pre = pairs ++ tail /\ paired pairs /\
      (tail = [] \/ exists l p, tail = [CreateNode l p]).
Proof.
  induction 1 as [|l p la pa r rest Hrest IH]; intros pre post E.
  - destruct pre; [|discriminate]. exists [], []. repeat split; auto. constructor.
  - destruct pre as [|q1 [|q2 pre]]; cbn [app] in E.
    + exists [], []. repeat split; auto. constructor.
    + injection E as E1 _. subst q1. exists [], [CreateNode l p].
      repeat split; [constructor | right; eauto].
    + injection E as E1 E2 E. subst q1 q2.
      destruct (IH pre post E) as (pairs & tail & -> & Hp & Ht).
      exists (CreateNode l p :: CreateRel la pa r l p :: pairs), tail.
      repeat split; [now constructor | exact Ht].
Qed.

(** X7.  Take the statements a run has issued up to any point, on any
    document: they are the creation of the root, then complete pairs (a
    creation followed at once by the relationship statement whose second
    pattern has the label and properties of the node just created), then at
    most one more creation, whose relationship statement is the next
    statement of the run.  So a run interrupted at a statement leaves at most
    one node without its relationship statement; and when every statement
    is accepted by the store, a run ends on a complete pair, also when a
    document error cuts it short: no read of the document stands between a
    creation and its relationship statement. *)
Theorem run_statements_at_any_point (data : value) :
  (exists rest, stmts (fst (run data)) = root_created :: rest /\ paired rest) /\
  (forall pre post,
      stmts (fst (run data)) = pre ++ post ->
      pre = [] \/
      exists pairs tail,
        pre = root_created :: pairs ++ tail /\ paired pairs /\
        (tail = [] \/ exists l p, tail = [CreateNode l p])).
Proof.
  destruct (run_issues_root_then_pairs data) as (rest & Hlog & Hrest).
  split; [now exists rest|].
  intros pre post E. rewrite Hlog in E.
  destruct pre as [|q pre]; [now left | right].
  cbn [app] in E. injection E as E1 E. subst q.
  destruct (paired_prefix rest Hrest pre post E) as (pairs & tail & -> & Hp & Ht).
  now exists pairs, tail.
Qed.

(** X7 on the sample document after two statements: the root and the
    creation of the first gene, whose relationship statement comes next. *)
Lemma sample_run_after_two_statements :
  exists pairs tail,
    firstn 2 (stmts (fst (run sample_document))) = root_created :: pairs ++ tail /\
    paired pairs /\
    (tail = [] \/ exists l p, tail = [CreateNode l p]).
Proof.
  destruct (proj2 (run_statements_at_any_point sample_document)
              (firstn 2 (stmts (fst (run sample_document))))
              (skipn 2 (stmts (fst (run sample_document))))
              eq_refl) as [H|H].
  - discriminate H.
  - exact H.
Defined.

(** ** When a run returns *)

(** X10.  A run returns exactly when each of the six sub-importers it calls
    returns on the document: the Protein import and the Gene, Feature,
    Reference, FullName and Organism imports; and what it has issued then is
    their statements, in that order. *)
Theorem run_succeeds_when_every_importer_does (data : value) :
  (snd (run data) = Ok tt <->
   Forall (fun m => snd m = Ok tt) (insert_protein :: steps data)) /\
  (snd (run data) = Ok tt ->
   stmts (fst (run data)) =
   flat_map (fun m => stmts (fst m)) (insert_protein :: steps data)).
Proof.
  assert (Hok : Forall (fun m => snd m = Ok tt) (steps data) ->
                run data = (fst insert_protein ++ flat_map (fun m => fst m) (steps data), Ok tt)).
  { intros H. rewrite run_as_steps, (for_each_all_ok _ (fun m => m) _ H). reflexivity. }
  assert (Hinv : snd (run data) = Ok tt ->
                 Forall (fun m => snd m = Ok tt) (insert_protein :: steps data)).
  { unfold run, steps. intros H.
    apply bind_ok_inv in H. destruct H as [[] [Hp H]].
    apply bind_ok_inv in H. destruct H as [[] [Hg H]].
    apply bind_ok_inv in H. destruct H as [[] [Hf H]].
    apply bind_ok_inv in H. destruct H as [[] [Hr H]].
    apply bind_ok_inv in H. destruct H as [[] [Hn Ho]].
    repeat constructor; assumption. }
  split.
  - split; [exact Hinv|]. intros H. apply Forall_inv_tail in H. now rewrite (Hok H).
  - intros H. apply Hinv, Forall_inv_tail in H. rewrite (Hok H). cbn [fst flat_map].
    now rewrite stmts_app, stmts_flat_map.
Qed.

(** X10 on the sample document, whose run returns after nineteen
    statements. *)
Lemma run_on_sample_document :
  snd (run sample_document) = Ok tt /\
  length (stmts (fst (run sample_document))) = 19.
Proof.
  split; [reflexivity|].
  rewrite (proj2 (run_succeeds_when_every_importer_does sample_document) eq_refl).
  reflexivity.
Defined.

(** ** The errors that reading the document can raise *)

(** X11.  The exceptions that come from reading the document (those of the
    driver are not among the exceptions modelled), on every document.  In
    the Gene, FullName and Organism imports they are a type error or a key
    error for one of the names the import subscripts, never an attribute
    error.  The Feature import can also raise an attribute error.  In the
    Reference import with its Author cascade they are a type error, an
    attribute error, or a key error for 'uniprot', 'entry', 'reference',
    'citation' or a person's '@name': the reads of '@key', of the citation's
    '@type' and '@name', of 'authorList' and of 'person' are all guarded and
    never raise a key error. *)
Theorem document_errors_of_the_importers (data : value) (e : exn) :
  (snd (insert_gene data) = Raise e -> allowed_exn false gene_keys e) /\
  (snd (insert_feature data) = Raise e -> allowed_exn true feature_keys e) /\
  (snd (insert_reference data) = Raise e -> allowed_exn true reference_keys e) /\
  (snd (insert_fullname data) = Raise e -> allowed_exn false InsertFullName.path e) /\
  (snd (insert_organism data) = Raise e -> allowed_exn false organism_keys e).
Proof.
  repeat split.
  - apply insert_gene_raises.
  - apply insert_feature_raises.
  - apply insert_reference_raises.
  - apply insert_fullname_raises.
  - apply insert_organism_raises.
Qed.

(** X11 on the document with a single gene name, where the Gene import
    raises a type error, which is among those allowed to it. *)
Lemma single_gene_name_document_error :
  snd (insert_gene (gene_document (elem "primary" "FOXA2"))) = Raise TypeError /\
  allowed_exn false gene_keys TypeError.
Proof.
  split; [reflexivity|].
  destruct (document_errors_of_the_importers
              (gene_document (elem "primary" "FOXA2")) TypeError) as (H & _).
  exact (H eq_refl).
Defined.
